(** * Evidence-traced RAG core: chunking, similarity search, bounded-retry
      generation and evidence reconciliation.

    Shallow embedding of
      - packages/rag/src/document-processor.ts (DocumentProcessor),
      - packages/rag/src/vector-store.ts       (VectorStore),
      - packages/rag/src/ollama-client.ts      (OllamaClient),
      - packages/rag/src/rag-pipeline.ts       (RAGPipeline).

    Conventions.
      - Text is [string] (one [ascii] per UTF-16 code unit, for text whose
        code units are below 256); [String.length] is JavaScript's
        [.length].
      - Counts, indices and the chunking configuration are [Z].
      - Similarity scores and embedding components are real numbers [R]:
        the IEEE rounding of JavaScript numbers is idealised away.  A stored
        embedding is the byte sequence of its BLOB.
      - Numbers decoded from the model's JSON reply are rationals [Q].
      - Exceptions are explicit: [Outcome A] is [Returns a] or [Throws msg].
      - The model server is a scripted collaborator threaded as state. *)

From Stdlib Require Import String Ascii List Bool Arith ZArith QArith Qround.
From Stdlib.Strings Require Import Byte.
From Stdlib Require Import Reals Lra Lia.
From Stdlib Require Import Sorted.
Import ListNotations.

Local Open Scope Z_scope.

(* ===================================================================== *)
(** * JavaScript string and array primitives used by the sources          *)
(* ===================================================================== *)

Module Js.

(** The result of a call that may throw. *)
Inductive Outcome (A : Type) : Type :=
| Returns (a : A)
| Throws (message : string).
Arguments Returns {A} a.
Arguments Throws {A} message.

(** [s.length] *)
Definition len (s : string) : Z := Z.of_nat (String.length s).

(** Truthiness of a string: non-empty. *)
Definition nonempty (s : string) : bool :=
  match s with EmptyString => false | String _ _ => true end.

(** White space as matched by [\s] and removed by [trim()], among the code
    units below 256: tab to carriage return, space, no-break space. *)
Definition is_whitespace (c : ascii) : bool :=
  let n := nat_of_ascii c in
  (Nat.eqb n 32 || (Nat.leb 9 n && Nat.leb n 13) || Nat.eqb n 160)%bool.

(** Characters of the class [[.!?]]. *)
Definition is_terminal (c : ascii) : bool :=
  let n := nat_of_ascii c in
  (Nat.eqb n 46 || Nat.eqb n 33 || Nat.eqb n 63)%bool.

Fixpoint trimStart (s : string) : string :=
  match s with
  | EmptyString => EmptyString
  | String c s' => if is_whitespace c then trimStart s' else s
  end.

Fixpoint trimEnd (s : string) : string :=
  match s with
  | EmptyString => EmptyString
  | String c s' =>
      let t := trimEnd s' in
      if (is_whitespace c && negb (nonempty t))%bool
      then EmptyString else String c t
  end.

Definition trim (s : string) : string := trimEnd (trimStart s).

Definition starts_with (delim : ascii -> bool) (s : string) : bool :=
  match s with EmptyString => false | String c _ => delim c end.

(** [s.split(/[delim]+/)]: the pieces between maximal runs of delimiter
    characters.  A leading or trailing run yields an empty piece, and the
    empty string yields one empty piece. *)
Fixpoint split_runs (delim : ascii -> bool) (s : string) : list string :=
  match s with
  | EmptyString => [EmptyString]
  | String c s' =>
      if delim c then
        if starts_with delim s' then split_runs delim s'
        else EmptyString :: split_runs delim s'
      else
        match split_runs delim s' with
        | p :: ps => String c p :: ps
        | [] => [String c EmptyString]
        end
  end.

(** [xs.join(sep)] *)
Definition join (sep : string) (xs : list string) : string :=
  String.concat sep xs.

(** [xs.slice(start)] with a relative (possibly negative) start. *)
Definition slice_from {A : Type} (start : Z) (xs : list A) : list A :=
  let n := Z.of_nat (List.length xs) in
  let k := if start <? 0 then Z.max (n + start) 0 else Z.min start n in
  skipn (Z.to_nat k) xs.

(** [xs.slice(0, stop)] with a relative (possibly negative) end. *)
Definition slice_to {A : Type} (stop : Z) (xs : list A) : list A :=
  let n := Z.of_nat (List.length xs) in
  let k := if stop <? 0 then Z.max (n + stop) 0 else Z.min stop n in
  firstn (Z.to_nat k) xs.

(** [xs.slice(start, stop)] with relative (possibly negative) bounds. *)
Definition slice {A : Type} (start stop : Z) (xs : list A) : list A :=
  let n := Z.of_nat (List.length xs) in
  let rel i := if i <? 0 then Z.max (n + i) 0 else Z.min i n in
  firstn (Z.to_nat (rel stop - rel start)) (skipn (Z.to_nat (rel start)) xs).

End Js.

Import Js.

(* ===================================================================== *)
(** * DocumentProcessor                                                    *)
(* ===================================================================== *)

Module DocumentProcessor.

Inductive SourceKind := pdf | docx | xlsx | csv | text | url.

Record ChunkMetadata := {
  sourceKind : SourceKind;
  sourcePathOrUrl : string;
  page : option Z;
  lineStart : option Z;
  lineEnd : option Z;
  section : option string;
  table : option string;
  fileHash : string;
  meta_chunkSize : Z;
  totalChunks : Z
}.

Record DocumentChunk := {
  id : string;
  documentId : string;
  chunkIndex : Z;
  content : string;
  metadata : ChunkMetadata;
  embedding : option (list R)
}.

Record ChunkingConfig := {
  chunkSize : Z;
  chunkOverlap : Z;
  preserveStructure : bool;
  minChunkSize : Z
}.

(** The constructor's default configuration. *)
Definition defaultConfig : ChunkingConfig :=
  {| chunkSize := 1000; chunkOverlap := 200;
     preserveStructure := true; minChunkSize := 100 |}.

Record BaseMetadata := {
  base_documentId : string;
  base_sourceKind : SourceKind;
  base_sourcePathOrUrl : string;
  base_fileHash : string;
  base_pageCount : option Z
}.

(** [text.split(/[.!?]+/).map(s => s.trim()).filter(s => s.length > 0)] *)
Definition splitIntoSentences (text : string) : list string :=
  filter nonempty (map trim (split_runs is_terminal text)).

(** [Math.ceil(text.length / 80)] *)
Definition estimateLines (text : string) : Z := (len text + 79) / 80.

(** [a + (a ? ' ' : '') + b], the expression that extends a buffer. *)
Definition append_spaced (a b : string) : string :=
  (a ++ (if nonempty a then " " else "") ++ b)%string.

Section WithConfig.

Variable config : ChunkingConfig.
(** [crypto.randomUUID()]: the k-th identifier drawn during one call. *)
Variable randomUUID : nat -> string.

(** [Math.floor(words.length * (chunkOverlap / chunkSize))], computed on
    exact rationals.  A zero [chunkSize] makes the JavaScript ratio
    infinite or NaN; the slice then keeps every word, except for a
    negative overlap, where it keeps none. *)
Definition overlapWordCount (words : list string) : Z :=
  Qfloor (inject_Z (Z.of_nat (List.length words))
          * (inject_Z (chunkOverlap config) / inject_Z (chunkSize config)))%Q.

Definition overlapWords (words : list string) : list string :=
  if chunkSize config =? 0 then
    if chunkOverlap config <? 0 then [] else words
  else slice_from (- overlapWordCount words) words.

Definition getOverlapText (text : string) : string :=
  let words := split_runs is_whitespace text in
  join " " (overlapWords words).

Definition createChunk (content : string) (chunkIndex : Z)
    (baseMetadata : BaseMetadata) (lineStart lineEnd : Z) (uuid : string)
    : DocumentChunk :=
  {| id := uuid;
     documentId := base_documentId baseMetadata;
     chunkIndex := chunkIndex;
     content := content;
     metadata :=
       {| sourceKind := base_sourceKind baseMetadata;
          sourcePathOrUrl := base_sourcePathOrUrl baseMetadata;
          page := None;
          lineStart := Some lineStart;
          lineEnd := Some lineEnd;
          section := None;
          table := None;
          fileHash := base_fileHash baseMetadata;
          meta_chunkSize := len content;
          totalChunks := 0 |};
     embedding := None |}.

(** The local variables of [chunkText]'s loop. *)
Record LoopState := {
  chunks : list DocumentChunk;
  currentChunk : string;
  currentChunkIndex : Z;
  currentLineStart : Z;
  currentLineEnd : Z
}.

Definition initialState : LoopState :=
  {| chunks := []; currentChunk := ""; currentChunkIndex := 0;
     currentLineStart := 1; currentLineEnd := 1 |}.

(** Does the loop body emit the buffer before taking [sentence]? *)
Definition emits (st : LoopState) (sentence : string) : bool :=
  ((chunkSize config <? len (append_spaced (currentChunk st) sentence))
   && (minChunkSize config <? len (currentChunk st)))%bool.

(** One iteration of the [for] loop. *)
Definition step (baseMetadata : BaseMetadata) (st : LoopState)
    (sentence : string) : LoopState :=
  let potentialChunk := append_spaced (currentChunk st) sentence in
  if emits st sentence then
    let overlapText := getOverlapText (currentChunk st) in
    {| chunks := chunks st ++
         [createChunk (currentChunk st) (currentChunkIndex st) baseMetadata
            (currentLineStart st) (currentLineEnd st)
            (randomUUID (List.length (chunks st)))];
       currentChunk := append_spaced overlapText sentence;
       currentChunkIndex := currentChunkIndex st + 1;
       currentLineStart := currentLineEnd st - estimateLines overlapText;
       currentLineEnd := currentLineEnd st + estimateLines sentence |}
  else
    {| chunks := chunks st;
       currentChunk := potentialChunk;
       currentChunkIndex := currentChunkIndex st;
       currentLineStart := currentLineStart st;
       currentLineEnd := currentLineEnd st + estimateLines sentence |}.

Definition runLoop (baseMetadata : BaseMetadata) (sentences : list string)
    (st : LoopState) : LoopState :=
  fold_left (step baseMetadata) sentences st.

(** Is the trailing buffer kept as the final chunk? *)
Definition keepsFinal (st : LoopState) : bool :=
  minChunkSize config <=? len (currentChunk st).

Definition withFinalChunk (baseMetadata : BaseMetadata) (st : LoopState)
    : list DocumentChunk :=
  if keepsFinal st then
    chunks st ++
      [createChunk (currentChunk st) (currentChunkIndex st) baseMetadata
         (currentLineStart st) (currentLineEnd st)
         (randomUUID (List.length (chunks st)))]
  else chunks st.

Definition setTotalChunks (n : Z) (c : DocumentChunk) : DocumentChunk :=
  let m := metadata c in
  {| id := id c; documentId := documentId c; chunkIndex := chunkIndex c;
     content := content c;
     metadata :=
       {| sourceKind := sourceKind m; sourcePathOrUrl := sourcePathOrUrl m;
          page := page m; lineStart := lineStart m; lineEnd := lineEnd m;
          section := section m; table := table m; fileHash := fileHash m;
          meta_chunkSize := meta_chunkSize m; totalChunks := n |};
     embedding := embedding c |}.

Definition chunkText (text : string) (baseMetadata : BaseMetadata)
    : list DocumentChunk :=
  let sentences := splitIntoSentences text in
  let st := runLoop baseMetadata sentences initialState in
  let chunks := withFinalChunk baseMetadata st in
  map (setTotalChunks (Z.of_nat (List.length chunks))) chunks.

(** ** The shape of the chunk contents *)

(** The buffer grown from [seed] by taking the sentences of [group] in
    turn, as the loop does. *)
Definition extend (seed : string) (group : list string) : string :=
  fold_left append_spaced group seed.

(** The text a buffer starts from: nothing for the first chunk, the overlap
    text of the chunk emitted before it otherwise. *)
Definition seedAfter (previous : option string) : string :=
  match previous with
  | None => ""
  | Some p => getOverlapText p
  end.

(** The chunk contents assembled from consecutive groups of sentences. *)
Fixpoint assemble (previous : option string) (groups : list (list string))
    : list string :=
  match groups with
  | [] => []
  | g :: gs =>
      let c := extend (seedAfter previous) g in
      c :: assemble (Some c) gs
  end.

(** A chunk content without the seed it took over from [previous]. *)
Definition stripSeed (previous c : string) : string :=
  let seed := append_spaced (getOverlapText previous) "" in
  String.substring (String.length seed)
    (String.length c - String.length seed) c.

Fixpoint withoutOverlap (previous : option string) (contents : list string)
    : list string :=
  match contents with
  | [] => []
  | c :: cs =>
      match previous with
      | None => c
      | Some p => stripSeed p c
      end :: withoutOverlap (Some c) cs
  end.

(** The concatenation of the chunks minus the overlap duplication, with the
    single space that the chunker puts between two sentences. *)
Definition reconstruction (contents : list string) : string :=
  join " " (withoutOverlap None contents).

(** The size bound as the specification words it: every chunk but the last,
    and but a single sentence longer than [chunkSize], has its length in
    [[minChunkSize, chunkSize]]. *)
Definition sizeBound (text : string) (contents : list string) : Prop :=
  forall (i : nat) (c : string),
    nth_error contents i = Some c ->
    S i <> List.length contents ->
    ~ (In c (splitIntoSentences text) /\ chunkSize config < len c) ->
    minChunkSize config <= len c <= chunkSize config.

(** The ways in which the chunk at index [i] may exceed [chunkSize]: its
    last sentence was appended to a buffer no longer than [minChunkSize]
    (an empty one for a single sentence), or to the overlap text of the
    chunk before it. *)
Definition softCapException (sentences contents : list string) (i : nat)
    (c : string) : Prop :=
  exists prefix s,
    c = append_spaced prefix s
    /\ In s sentences
    /\ (len prefix <= minChunkSize config
        \/ exists j p,
             S j = i /\ nth_error contents j = Some p
             /\ prefix = getOverlapText p).

(** The chunk at index [i] respects the cap or is one of its exceptions. *)
Definition withinCap (sentences contents : list string) (i : nat)
    (c : string) : Prop :=
  len c <= chunkSize config \/ softCapException sentences contents i c.

(** The contents emitted so far and the buffer, as groups of sentences. *)
Definition groupedAs (st : LoopState) (groups : list (list string))
    (g : list string) : Prop :=
  map content (chunks st) = assemble None groups
  /\ currentChunk st
     = extend (seedAfter (last (map Some (assemble None groups)) None)) g.

(** Groups as the loop forms them from non-empty sentences: no emitted
    group is empty, and the buffer's group is empty only at the start. *)
Definition wellGrouped (groups : list (list string)) (g : list string) : Prop :=
  Forall (fun g0 => g0 <> [] /\ Forall (fun s => nonempty s = true) g0) groups
  /\ Forall (fun s => nonempty s = true) g
  /\ (g = [] -> groups = []).

(** What the loop maintains about the cap: emitted chunks are within it,
    and so will the buffer be at the index it would be emitted at. *)
Definition capped (sentences : list string) (st : LoopState) : Prop :=
  let contents := map content (chunks st) in
  (forall i c, nth_error contents i = Some c ->
     withinCap sentences contents i c)
  /\ withinCap sentences contents (List.length contents) (currentChunk st).

(** ** The chunk records *)

(** What [createChunk] fixes of the chunk pushed at position [i]. *)
Definition recorded (base : BaseMetadata) (i : nat) (c : DocumentChunk) : Prop :=
  chunkIndex c = Z.of_nat i
  /\ id c = randomUUID i
  /\ documentId c = base_documentId base
  /\ sourcePathOrUrl (metadata c) = base_sourcePathOrUrl base
  /\ fileHash (metadata c) = base_fileHash base
  /\ meta_chunkSize (metadata c) = len (content c)
  /\ embedding c = None
  /\ exists first final,
       lineStart (metadata c) = Some first
       /\ lineEnd (metadata c) = Some final
       /\ first <= final /\ 1 <= final.

(** The loop keeps the index equal to the number of chunks pushed, the
    line counters ordered, and every pushed chunk as recorded. *)
Definition counted (base : BaseMetadata) (st : LoopState) : Prop :=
  currentChunkIndex st = Z.of_nat (List.length (chunks st))
  /\ currentLineStart st <= currentLineEnd st
  /\ 1 <= currentLineEnd st
  /\ forall i c, nth_error (chunks st) i = Some c -> recorded base i c.

End WithConfig.

(** ** Processing the text of a URL *)

(** The platform services that [processURL] calls: the k-th
    [crypto.randomUUID()] of the operation, the hex SHA-256 digest, the name
    [new URL(url).pathname.split('/').pop() || 'web-content'] (the [URL]
    constructor throws for an invalid address) and [Buffer.byteLength]. *)
Class Platform := {
  uuid : nat -> string;
  sha256Hex : string -> string;
  urlFileName : string -> Outcome string;
  utf8ByteLength : string -> Z
}.

(** The metadata of a [ProcessingResult]; the date [processedAt] is left
    out. *)
Record ProcessingMetadata := {
  fileName : string;
  fileSize : Z;
  processedHash : string;
  mimeType : string;
  pageCount : option Z;
  wordCount : Z
}.

Record ProcessingResult := {
  processedDocumentId : string;
  processedChunks : list DocumentChunk;
  processedMetadata : ProcessingMetadata
}.

Definition processURL {platform : Platform} (config : ChunkingConfig)
    (url content : string) : Outcome ProcessingResult :=
  let documentId := uuid 0 in
  let fileHash := sha256Hex content in
  let chunks :=
    chunkText config (fun k => uuid (S k)) content
      {| base_documentId := documentId;
         base_sourceKind := text;
         base_sourcePathOrUrl := url;
         base_fileHash := fileHash;
         base_pageCount := None |} in
  let wordCount := Z.of_nat (List.length (split_runs is_whitespace content)) in
  match urlFileName url with
  | Throws e => Throws e
  | Returns name =>
      Returns
        {| processedDocumentId := documentId;
           processedChunks := chunks;
           processedMetadata :=
             {| fileName := name;
                fileSize := utf8ByteLength content;
                processedHash := fileHash;
                mimeType := "text/html";
                pageCount := None;
                wordCount := wordCount |} |}
  end.

End DocumentProcessor.


(* ===================================================================== *)
(** * VectorStore                                                          *)
(* ===================================================================== *)

Module VectorStore.

Import DocumentProcessor.

Record VectorSearchResult := {
  chunk : DocumentChunk;
  score : R;
  distance : R
}.

(** A record of the [document_embeddings] table.  The metadata column holds
    the chunk metadata as JSON text and is kept decoded; the embedding
    column holds a BLOB, read as a [Buffer] of bytes, or NULL. *)
Record Row := {
  row_id : string;
  row_document_id : string;
  row_chunk_index : Z;
  row_content : string;
  row_embedding : option (list byte);
  row_metadata : ChunkMetadata
}.

(** The [vec_embeddings] virtual table of the sqlite-vec extension, seen
    through the one statement run against it: the (id, distance) pairs
    selected by [embedding MATCH ? ORDER BY distance LIMIT ?]. *)
Record VecTable := {
  knn : list R -> Z -> list (string * R)
}.

(** The database: the primary table in row order and, when the extension
    was loaded, the mirrored index. *)
Record Database := {
  document_embeddings : list Row;
  vec_embeddings : option VecTable
}.

(** [Buffer.from(new Float32Array(embedding).buffer)], the BLOB written by
    [addChunks]: four bytes per component, given the binary32 encoding of a
    number. *)
Definition embeddingBlob (binary32 : R -> byte * byte * byte * byte)
    (embedding : list R) : list byte :=
  flat_map
    (fun x => let '(b0, b1, b2, b3) := binary32 x in [b0; b1; b2; b3])
    embedding.

(** [Array.from(new Float32Array(blob))] for a [Buffer]: a typed array built
    from another typed array copies it element by element, so each byte of
    the BLOB becomes one component. *)
Definition decodeEmbedding (blob : list byte) : list R :=
  map (fun b => IZR (Z.of_N (Byte.to_N b))) blob.

Definition rowToChunk (row : Row) : DocumentChunk :=
  {| id := row_id row;
     documentId := row_document_id row;
     chunkIndex := row_chunk_index row;
     content := row_content row;
     metadata := row_metadata row;
     embedding := option_map decodeEmbedding (row_embedding row) |}.

(** [documentIds && documentIds.length > 0] *)
Definition hasFilter (documentIds : option (list string)) : bool :=
  match documentIds with
  | Some (_ :: _) => true
  | _ => false
  end.

Definition inFilter (documentIds : option (list string)) (row : Row) : bool :=
  match documentIds with
  | Some (d :: ds) => existsb (String.eqb (row_document_id row)) (d :: ds)
  | _ => true
  end.

(** [a === 0] on numbers. *)
Definition isZero (x : R) : bool :=
  if Req_dec_T x 0%R then true else false.

(** [a >= b] on numbers. *)
Definition geb (a b : R) : bool :=
  if Rle_dec b a then true else false.

(** The three accumulators of [cosineSimilarity]'s loop. *)
Definition accumulate (acc : R * R * R) (xy : R * R) : R * R * R :=
  let '(dotProduct, normA, normB) := acc in
  let '(x, y) := xy in
  (dotProduct + x * y, normA + x * x, normB + y * y)%R.

Definition cosineSimilarity (a b : list R) : Outcome R :=
  if negb (Nat.eqb (List.length a) (List.length b)) then
    Throws "Vectors must have the same length"
  else
    let '(dotProduct, normA, normB) :=
      fold_left accumulate (combine a b) (0, 0, 0)%R in
    if (isZero normA || isZero normB)%bool then Returns 0%R
    else Returns (dotProduct / (sqrt normA * sqrt normB))%R.

(** Insertion of [x] in a list sorted by descending score, ahead of the
    first element whose score does not exceed its own. *)
Fixpoint insertByScore (x : VectorSearchResult) (l : list VectorSearchResult)
    : list VectorSearchResult :=
  match l with
  | [] => [x]
  | y :: l' =>
      if geb (score x) (score y) then x :: y :: l'
      else y :: insertByScore x l'
  end.

(** [results.sort((a, b) => b.score - a.score)]: stable, descending. *)
Definition sortByScore (l : list VectorSearchResult) : list VectorSearchResult :=
  fold_right insertByScore [] l.

(** The accelerated path.  With a document filter the statement text has two
    WHERE clauses and [prepare] rejects it; without the extension the
    virtual table does not exist. *)
Definition vectorSearch (db : Database) (queryEmbedding : list R) (topK : Z)
    (documentIds : option (list string)) : Outcome (list VectorSearchResult) :=
  if hasFilter documentIds then Throws "near WHERE: syntax error"
  else
    match vec_embeddings db with
    | None => Throws "no such table: vec_embeddings"
    | Some vec =>
        let rows :=
          flat_map
            (fun hit : string * R =>
               map (fun row => (row, snd hit))
                 (filter (fun row => String.eqb (row_id row) (fst hit))
                    (document_embeddings db)))
            (knn vec queryEmbedding topK) in
        Returns
          (map (fun rd : Row * R =>
                  {| chunk := rowToChunk (fst rd);
                     score := (1 - snd rd)%R;
                     distance := snd rd |})
             rows)
    end.

(** The body of the scan loop of [cosineSimilaritySearch]; an exception of
    [cosineSimilarity] leaves the loop and the function. *)
Fixpoint scanRows (queryEmbedding : list R) (rows : list Row)
    (results : list VectorSearchResult) : Outcome (list VectorSearchResult) :=
  match rows with
  | [] => Returns results
  | row :: rest =>
      match row_embedding row with
      | None => scanRows queryEmbedding rest results
      | Some blob =>
          let embedding := decodeEmbedding blob in
          match cosineSimilarity queryEmbedding embedding with
          | Throws e => Throws e
          | Returns similarity =>
              scanRows queryEmbedding rest
                (results ++
                 [{| chunk := rowToChunk row;
                     score := similarity;
                     distance := (1 - similarity)%R |}])
          end
      end
  end.

(** The fallback path. *)
Definition cosineSimilaritySearch (db : Database) (queryEmbedding : list R)
    (topK : Z) (documentIds : option (list string))
    : Outcome (list VectorSearchResult) :=
  let rows :=
    filter
      (fun row =>
         (match row_embedding row with Some _ => true | None => false end
          && inFilter documentIds row)%bool)
      (document_embeddings db) in
  match scanRows queryEmbedding rows [] with
  | Throws e => Throws e
  | Returns results => Returns (slice_to topK (sortByScore results))
  end.

(** The three sums that [cosineSimilarity] accumulates over the paired
    components. *)
Definition dotOf (l : list (R * R)) : R :=
  fold_right (fun xy acc => (fst xy * snd xy + acc)%R) 0%R l.

Definition squaresOfFst (l : list (R * R)) : R :=
  fold_right (fun xy acc => (fst xy * fst xy + acc)%R) 0%R l.

Definition squaresOfSnd (l : list (R * R)) : R :=
  fold_right (fun xy acc => (snd xy * snd xy + acc)%R) 0%R l.


Definition searchSimilar (db : Database) (queryEmbedding : list R) (topK : Z)
    (documentIds : option (list string)) : Outcome (list VectorSearchResult) :=
  match vectorSearch db queryEmbedding topK documentIds with
  | Returns results => Returns results
  | Throws _ => cosineSimilaritySearch db queryEmbedding topK documentIds
  end.

(** ** Writing, reading and deleting chunks *)

(** The parts of the storage engine that the sources rely on without
    defining: the binary32 encoding of a number, and the effect on the
    index of [INSERT OR REPLACE INTO vec_embeddings], a failure of which is
    caught and leaves the index as it was. *)
Class Engine := {
  float32 : R -> byte * byte * byte * byte;
  vecInsert : VecTable -> string -> list R -> VecTable
}.

(** The values bound to the insert statement for one chunk. *)
Definition chunkToRow {engine : Engine} (c : DocumentChunk) : Row :=
  {| row_id := id c;
     row_document_id := documentId c;
     row_chunk_index := chunkIndex c;
     row_content := content c;
     row_embedding := option_map (embeddingBlob float32) (embedding c);
     row_metadata := metadata c |}.

(** [INSERT OR REPLACE] on the primary key [id]: a row with the same id is
    removed and the new row is added at the end of the table. *)
Definition upsertRow (row : Row) (rows : list Row) : list Row :=
  filter (fun r => negb (String.eqb (row_id r) (row_id row))) rows ++ [row].

(** The body of the transaction of [addChunks] for one chunk, on the
    primary table and the index. *)
Definition addChunk {engine : Engine} (state : list Row * VecTable)
    (c : DocumentChunk) : list Row * VecTable :=
  (upsertRow (chunkToRow c) (fst state),
   match embedding c with
   | Some e => vecInsert (snd state) (id c) e
   | None => snd state
   end).

(** [addChunks].  Both statements are prepared before the transaction, so
    without the [vec_embeddings] table the call throws before writing. *)
Definition addChunks {engine : Engine} (db : Database)
    (chunks : list DocumentChunk) : Outcome Database :=
  match vec_embeddings db with
  | None => Throws "no such table: vec_embeddings"
  | Some vec =>
      let state := fold_left addChunk chunks (document_embeddings db, vec) in
      Returns {| document_embeddings := fst state;
                 vec_embeddings := Some (snd state) |}
  end.


(** Insertion in a list ordered by ascending [chunk_index]. *)
Fixpoint insertByIndex (x : Row) (l : list Row) : list Row :=
  match l with
  | [] => [x]
  | y :: l' =>
      if row_chunk_index x <=? row_chunk_index y then x :: y :: l'
      else y :: insertByIndex x l'
  end.

(** [ORDER BY chunk_index] *)
Definition orderByIndex (l : list Row) : list Row :=
  fold_right insertByIndex [] l.

Definition getChunksByDocumentId (db : Database) (docId : string)
    : list DocumentChunk :=
  map rowToChunk
    (orderByIndex
       (filter (fun r => String.eqb (row_document_id r) docId)
          (document_embeddings db))).

(** [deleteDocument].  The statement on the index is prepared before the
    transaction, so without the [vec_embeddings] table the call throws
    before deleting.  With it, the primary rows are deleted first; the
    sub-select of the statement on the index then finds no id of the
    document, and the index stays as it is. *)
Definition deleteDocument (db : Database) (docId : string) : Outcome Database :=
  match vec_embeddings db with
  | None => Throws "no such table: vec_embeddings"
  | Some vec =>
      Returns
        {| document_embeddings :=
             filter (fun r => negb (String.eqb (row_document_id r) docId))
               (document_embeddings db);
           vec_embeddings := Some vec |}
  end.

(** [COUNT(DISTINCT document_id)] *)
Definition getDocumentCount (db : Database) : Z :=
  Z.of_nat
    (List.length
       (nodup string_dec (map row_document_id (document_embeddings db)))).

(** [COUNT( * )] *)
Definition getChunkCount (db : Database) : Z :=
  Z.of_nat (List.length (document_embeddings db)).

(** Scores in descending order, ties allowed. *)
Definition descending {A : Type} (key : A -> R) (l : list A) : Prop :=
  Sorted.StronglySorted (fun a b => (key b <= key a)%R) l.

(** A result built from one of the rows given. *)
Definition scanned (rows : list Row) (r : VectorSearchResult) : Prop :=
  exists row, In row rows /\ chunk r = rowToChunk row.

End VectorStore.


(* ===================================================================== *)
(** * OllamaClient                                                         *)
(* ===================================================================== *)

Module OllamaClient.

(** A value produced by [JSON.parse]; the members of an object are its
    properties, one entry per key. *)
#[local] Unset Elimination Schemes.
Inductive json :=
| JNull
| JBool (b : bool)
| JNum (q : Q)
| JStr (s : string)
| JArr (items : list json)
| JObj (members : list (string * json)).
#[local] Set Elimination Schemes.

(** The functions of the JavaScript runtime applied to the model's text:
    [JSON.parse] ([None] when it throws) and the first decimal numeral of a
    text, as found by [match] and read by [parseFloat] ([None] when the
    text holds no digit). *)
Class Runtime := {
  JSON_parse : string -> option json;
  matchNumber : string -> option R
}.

Record EvidencePointer := {
  sourcePathOrUrl : string;
  page : option Q;
  lineStart : option Q;
  lineEnd : option Q;
  snippet : option string
}.

Record Claim := {
  text : string;
  evidencePointers : list EvidencePointer;
  guidelineIds : list string;
  attributeIds : list string;
  confidence : Q
}.

Record EvidenceTracedResponse := {
  claims : list Claim;
  summary : string;
  overallConfidence : Q;
  evidenceGaps : option (list string)
}.

(** ** The zod combinators used by [EvidenceTracedResponseSchema] *)

Definition bindOpt {A B : Type} (o : option A) (k : A -> option B) : option B :=
  match o with Some a => k a | None => None end.

Notation "x <?- o ;; k" := (bindOpt o (fun x => k))
  (at level 61, o at next level, right associativity).

Fixpoint traverse {A B : Type} (f : A -> option B) (l : list A)
    : option (list B) :=
  match l with
  | [] => Some []
  | a :: l' =>
      b <?- f a ;;
      bs <?- traverse f l' ;;
      Some (b :: bs)
  end.

Fixpoint member (key : string) (members : list (string * json)) : option json :=
  match members with
  | [] => None
  | (k, v) :: rest => if String.eqb k key then Some v else member key rest
  end.

Definition z_string (j : json) : option string :=
  match j with JStr s => Some s | _ => None end.

Definition z_number (j : json) : option Q :=
  match j with JNum q => Some q | _ => None end.

(** [z.number().min(lo).max(hi)] *)
Definition z_number_min_max (lo hi : Q) (j : json) : option Q :=
  q <?- z_number j ;;
  if (Qle_bool lo q && Qle_bool q hi)%bool then Some q else None.

Definition z_array {A : Type} (item : json -> option A) (j : json)
    : option (list A) :=
  match j with JArr items => traverse item items | _ => None end.

(** A required key of a [z.object]. *)
Definition required {A : Type} (schema : json -> option A) (key : string)
    (members : list (string * json)) : option A :=
  j <?- member key members ;; schema j.

(** A key declared [.optional()]: absent, or present and valid. *)
Definition optional {A : Type} (schema : json -> option A) (key : string)
    (members : list (string * json)) : option (option A) :=
  match member key members with
  | None => Some None
  | Some j => a <?- schema j ;; Some (Some a)
  end.

Definition EvidencePointerSchema (j : json) : option EvidencePointer :=
  match j with
  | JObj m =>
      src <?- required z_string "sourcePathOrUrl" m ;;
      pg <?- optional z_number "page" m ;;
      ls <?- optional z_number "lineStart" m ;;
      le <?- optional z_number "lineEnd" m ;;
      sn <?- optional z_string "snippet" m ;;
      Some {| sourcePathOrUrl := src; page := pg; lineStart := ls;
              lineEnd := le; snippet := sn |}
  | _ => None
  end.

Definition ClaimSchema (j : json) : option Claim :=
  match j with
  | JObj m =>
      t <?- required z_string "text" m ;;
      eps <?- required (z_array EvidencePointerSchema) "evidencePointers" m ;;
      gs <?- required (z_array z_string) "guidelineIds" m ;;
      ats <?- required (z_array z_string) "attributeIds" m ;;
      c <?- required (z_number_min_max 0 1) "confidence" m ;;
      Some {| text := t; evidencePointers := eps; guidelineIds := gs;
              attributeIds := ats; confidence := c |}
  | _ => None
  end.

(** [EvidenceTracedResponseSchema.parse]: [None] when it throws. *)
Definition EvidenceTracedResponseSchema (j : json)
    : option EvidenceTracedResponse :=
  match j with
  | JObj m =>
      cs <?- required (z_array ClaimSchema) "claims" m ;;
      s <?- required z_string "summary" m ;;
      oc <?- required (z_number_min_max 0 1) "overallConfidence" m ;;
      gaps <?- optional (z_array z_string) "evidenceGaps" m ;;
      Some {| claims := cs; summary := s; overallConfidence := oc;
              evidenceGaps := gaps |}
  | _ => None
  end.

(** ** The model server *)

Record OllamaConfig := {
  baseUrl : string;
  generalModel : string;
  coderModel : option string;
  embeddingModel : string;
  rerankerModel : option string;
  temperature : Q;
  topP : Q;
  maxRetries : Z
}.

(** The outcome of one call of [client.generate]. *)
Inductive Reply :=
| Rejects (error : string)
| Responds (response : string).

(** The server as a scripted collaborator: what the embeddings endpoint
    answers for a prompt, the outcomes of the generate calls still to come
    (an exhausted script rejects), and the models the generate endpoint was
    invoked with so far. *)
Record Server := {
  embeddings : string -> Outcome (list R);
  script : list Reply;
  generateCalls : list string
}.

(** Computations that use the server and may throw. *)
Definition M (A : Type) : Type := Server -> Outcome A * Server.

Definition ret {A : Type} (a : A) : M A := fun s => (Returns a, s).

Definition throw {A : Type} (message : string) : M A :=
  fun s => (Throws message, s).

Definition bind {A B : Type} (m : M A) (k : A -> M B) : M B :=
  fun s =>
    match m s with
    | (Returns a, s') => k a s'
    | (Throws e, s') => (Throws e, s')
    end.

(** [try { m } catch (error) { handler(error) }] *)
Definition tryCatch {A : Type} (m : M A) (handler : string -> M A) : M A :=
  fun s =>
    match m s with
    | (Returns a, s') => (Returns a, s')
    | (Throws e, s') => handler e s'
    end.

Definition lift {A : Type} (o : Outcome A) : M A := fun s => (o, s).

Notation "x <- m ;; k" := (bind m (fun x => k))
  (at level 61, m at next level, right associativity).

(** [`${error}`] for an [Error] object. *)
Definition showError (message : string) : string :=
  ("Error: " ++ message)%string.

(** [await this.client.generate({ model, ... })] *)
Definition consumed (model : string) (s : Server) : Server :=
  {| embeddings := embeddings s;
     script := tl (script s);
     generateCalls := generateCalls s ++ [model] |}.

Definition client_generate (model : string) : M string :=
  fun s =>
    match script s with
    | [] => (Throws "fetch failed", consumed model s)
    | Rejects e :: _ => (Throws e, consumed model s)
    | Responds r :: _ => (Returns r, consumed model s)
    end.

(** [await this.client.embeddings({ model, prompt })] *)
Definition client_embeddings (prompt : string) : M (list R) :=
  fun s => (embeddings s prompt, s).

(** [a || b] on an optional model name. *)
Definition orElse (a : option string) (b : string) : string :=
  match a with
  | Some m => if nonempty m then m else b
  | None => b
  end.

Section Client.

Context {runtime : Runtime}.
Variable config : OllamaConfig.

Definition generateEmbedding (text : string) : M (list R) :=
  tryCatch (client_embeddings text)
    (fun error =>
       throw ("Failed to generate embedding: " ++ showError error)%string).

(** The response returned when the last attempt fails. *)
Definition noClaimResponse : EvidenceTracedResponse :=
  {| claims := [];
     summary := "Insufficient evidence to make reliable claims";
     overallConfidence := 0;
     evidenceGaps :=
       Some ["Unable to process context or generate valid response"%string] |}.

(** [this.config.coderModel || this.config.generalModel] *)
Definition generationModel : string :=
  orElse (coderModel config) (generalModel config).

(** The [try] block of one attempt: generate, [JSON.parse], validate. *)
Definition attemptOnce : M EvidenceTracedResponse :=
  response <- client_generate generationModel ;;
  match JSON_parse response with
  | None => throw "Unexpected token in JSON"
  | Some parsed =>
      match EvidenceTracedResponseSchema parsed with
      | None => throw "ZodError"
      | Some validated => ret validated
      end
  end.

(** What the [try] block makes of one outcome of the generate call: the
    validated response, or nothing when the call, [JSON.parse] or the schema
    rejects. *)
Definition accepted (reply : Reply) : option EvidenceTracedResponse :=
  match reply with
  | Rejects _ => None
  | Responds response =>
      match JSON_parse response with
      | None => None
      | Some parsed => EvidenceTracedResponseSchema parsed
      end
  end.

(** The loop [for (attempt = 0; attempt < retries; attempt++)], by
    recursion on the number of iterations still to run, which is
    [retries - attempt] when positive and none otherwise. *)
Fixpoint attempts (remaining : nat) (attempt retries : Z)
    : M EvidenceTracedResponse :=
  match remaining with
  | O => throw "All retry attempts failed"
  | S remaining' =>
      tryCatch attemptOnce
        (fun _ =>
           if attempt =? retries - 1 then ret noClaimResponse
           else attempts remaining' (attempt + 1) retries)
  end.

Definition generateEvidenceTracedResponse (question context : string)
    (retries : Z) : M EvidenceTracedResponse :=
  attempts (Z.to_nat retries) 0 retries.

(** ** Reranking *)

Record Document := {
  doc_id : string;
  doc_content : string;
  doc_score : option R
}.

Record ScoredDocument := {
  scored_id : string;
  scored_content : string;
  scored_score : R
}.

(** [doc.score || 0] *)
Definition scoreOrZero (d : Document) : R :=
  match doc_score d with Some x => x | None => 0%R end.

Fixpoint insertDocument {A : Type} (key : A -> R) (x : A) (l : list A) : list A :=
  match l with
  | [] => [x]
  | y :: l' =>
      if VectorStore.geb (key x) (key y) then x :: y :: l'
      else y :: insertDocument key x l'
  end.

(** [docs.sort((a, b) => key(b) - key(a))] *)
Definition sortDescending {A : Type} (key : A -> R) (l : list A) : list A :=
  fold_right (insertDocument key) [] l.

(** The pass-through ordering used without a reranker and after a failure. *)
Definition byExistingScore (documents : list Document) (topK : Z)
    : list ScoredDocument :=
  map (fun d => {| scored_id := doc_id d; scored_content := doc_content d;
                   scored_score := scoreOrZero d |})
    (slice_to topK (sortDescending scoreOrZero documents)).

(** [Math.min(1.0, Math.max(0.0, x))] *)
Definition clamp01 (x : R) : R := Rmin 1 (Rmax 0 x).

Fixpoint rerankLoop (model : string) (documents : list Document)
    (rerankedDocs : list ScoredDocument) : M (list ScoredDocument) :=
  match documents with
  | [] => ret rerankedDocs
  | doc :: rest =>
      response <- client_generate model ;;
      let score :=
        match matchNumber response with
        | Some x => clamp01 x
        | None => (1 / 2)%R
        end in
      rerankLoop model rest
        (rerankedDocs ++
         [{| scored_id := doc_id doc; scored_content := doc_content doc;
             scored_score := score |}])
  end.

Definition rerank (query : string) (documents : list Document) (topK : Z)
    : M (list ScoredDocument) :=
  match rerankerModel config with
  | Some model =>
      if nonempty model then
        tryCatch
          (rerankedDocs <- rerankLoop model documents [] ;;
           ret (slice_to topK (sortDescending scored_score rerankedDocs)))
          (fun _ => ret (byExistingScore documents topK))
      else ret (byExistingScore documents topK)
  | None => ret (byExistingScore documents topK)
  end.

(** ** Embedding a list of texts *)

Record EmbeddingResult := {
  embedding : list R;
  model : string;
  prompt : string
}.

(** [generateEmbedding] with the record it returns. *)
Definition generateEmbeddingResult (text : string) : M EmbeddingResult :=
  e <- generateEmbedding text ;;
  ret {| embedding := e; model := embeddingModel config; prompt := text |}.

(** [await Promise.all(calls)]: the results in the order of the calls, or
    the rejection of a call; among several rejections the first in the list
    is taken. *)
Fixpoint promiseAll {A : Type} (calls : list (M A)) : M (list A) :=
  match calls with
  | [] => ret []
  | call :: rest =>
      a <- call ;;
      others <- promiseAll rest ;;
      ret (a :: others)
  end.

(** The loop [for (i = 0; i < texts.length; i += batchSize)], by recursion
    on the number of batches still to run. *)
Fixpoint batchLoop (remaining : nat) (i : nat) (texts : list string)
    (results : list EmbeddingResult) : M (list EmbeddingResult) :=
  match remaining with
  | O => ret results
  | S remaining' =>
      let batch := firstn 10 (skipn i texts) in
      batchResults <- promiseAll (map generateEmbeddingResult batch) ;;
      batchLoop remaining' (i + 10) texts (results ++ batchResults)
  end.

Definition generateEmbeddings (texts : list string) : M (list EmbeddingResult) :=
  batchLoop ((List.length texts + 9) / 10) 0 texts [].

End Client.

(** A reranked document stands for one of the documents given. *)
Definition standsFor (documents : list Document) (d : ScoredDocument) : Prop :=
  exists doc,
    In doc documents
    /\ scored_id d = doc_id doc /\ scored_content d = doc_content doc.

(** An outcome of the generate endpoint that is an answer. *)
Definition responds (r : Reply) : Prop :=
  match r with Responds _ => True | Rejects _ => False end.

End OllamaClient.


(* ===================================================================== *)
(** * RAGPipeline                                                          *)
(* ===================================================================== *)

Module RAGPipeline.

Import VectorStore OllamaClient.
Module DP := DocumentProcessor.

Record RetrievalConfig := {
  topK : Z;
  rerankTopK : Z;
  confidenceThreshold : R;
  enableReranking : bool
}.

Record RAGConfig := {
  ollama : OllamaConfig;
  chunking : DP.ChunkingConfig;
  retrieval : RetrievalConfig
}.

(** The third argument of [query]. *)
Record QueryOptions := {
  opt_topK : option Z;
  opt_rerankTopK : option Z;
  opt_enableReranking : option bool
}.

(** The value returned by [query]; the wall-clock timings are left out. *)
Record RAGQueryResult := {
  response : EvidenceTracedResponse;
  retrievedChunks : list VectorSearchResult;
  rerankedChunks : option (list VectorSearchResult)
}.

(** Truthiness of optional numbers and strings. *)
Definition truthyQ (o : option Q) : bool :=
  match o with Some q => negb (Qeq_bool q 0) | None => false end.

Definition truthyZ (o : option Z) : bool :=
  match o with Some z => negb (z =? 0) | None => false end.

Definition truthyString (o : option string) : bool :=
  match o with Some s => nonempty s | None => false end.

(** [options?.field || fallback] *)
Definition orConfigured (o : option Z) (fallback : Z) : Z :=
  match o with
  | Some k => if k =? 0 then fallback else k
  | None => fallback
  end.

(** The response of the short-circuit when no chunk passes the filter. *)
Definition noEvidenceResponse : EvidenceTracedResponse :=
  {| claims := [];
     summary := "No relevant evidence found for the query";
     overallConfidence := 0;
     evidenceGaps :=
       Some ["Insufficient relevant documents in knowledge base"%string] |}.

(** ** Evidence reconciliation *)

Definition matchingChunk (contextChunks : list VectorSearchResult)
    (evidencePointer : EvidencePointer) : option VectorSearchResult :=
  find
    (fun result =>
       String.eqb (DP.sourcePathOrUrl (DP.metadata (chunk result)))
         (sourcePathOrUrl evidencePointer))
    contextChunks.

Definition setPage (p : option Q) (e : EvidencePointer) : EvidencePointer :=
  {| sourcePathOrUrl := sourcePathOrUrl e; page := p;
     lineStart := lineStart e; lineEnd := lineEnd e; snippet := snippet e |}.

Definition setLines (s e' : option Q) (e : EvidencePointer) : EvidencePointer :=
  {| sourcePathOrUrl := sourcePathOrUrl e; page := page e;
     lineStart := s; lineEnd := e'; snippet := snippet e |}.

Definition setSnippet (s : option string) (e : EvidencePointer)
    : EvidencePointer :=
  {| sourcePathOrUrl := sourcePathOrUrl e; page := page e;
     lineStart := lineStart e; lineEnd := lineEnd e; snippet := s |}.

(** The body of the inner loop of [enhanceEvidencePointers]. *)
Definition enhancePointer (contextChunks : list VectorSearchResult)
    (evidencePointer : EvidencePointer) : EvidencePointer :=
  match matchingChunk contextChunks evidencePointer with
  | None => evidencePointer
  | Some matching =>
      let chunk := chunk matching in
      let metadata := DP.metadata chunk in
      let e1 :=
        if (negb (truthyQ (page evidencePointer))
            && truthyZ (DP.page metadata))%bool
        then setPage (option_map inject_Z (DP.page metadata)) evidencePointer
        else evidencePointer in
      let e2 :=
        if (negb (truthyQ (lineStart e1))
            && truthyZ (DP.lineStart metadata))%bool
        then setLines (option_map inject_Z (DP.lineStart metadata))
                      (option_map inject_Z (DP.lineEnd metadata)) e1
        else e1 in
      if (negb (truthyString (snippet e2)) && nonempty (DP.content chunk))%bool
      then setSnippet
             (Some (String.substring 0 200 (DP.content chunk) ++ "...")%string)
             e2
      else e2
  end.

Definition enhanceClaim (contextChunks : list VectorSearchResult) (c : Claim)
    : Claim :=
  {| text := text c;
     evidencePointers :=
       map (enhancePointer contextChunks) (evidencePointers c);
     guidelineIds := guidelineIds c;
     attributeIds := attributeIds c;
     confidence := confidence c |}.

(** The response after the in-place updates of [enhanceEvidencePointers]. *)
Definition enhanceEvidencePointers (response : EvidenceTracedResponse)
    (contextChunks : list VectorSearchResult) : EvidenceTracedResponse :=
  {| claims := map (enhanceClaim contextChunks) (claims response);
     summary := summary response;
     overallConfidence := overallConfidence response;
     evidenceGaps := evidenceGaps response |}.

(** ** Query *)

(** Number formatting of the context block: [n.toFixed(3)] and the decimal
    rendering of an integer inside a template literal. *)
Class Formatting := {
  toFixed3 : R -> string;
  showInteger : Z -> string
}.

Definition newline : string := String (ascii_of_nat 10) EmptyString.

Section Pipeline.

Context {runtime : Runtime} {formatting : Formatting}.
Variable config : RAGConfig.

Definition showOptional (o : option Z) : string :=
  match o with Some z => showInteger z | None => "undefined" end.

Definition contextEntry (index : nat) (result : VectorSearchResult) : string :=
  let chunk := chunk result in
  let metadata := DP.metadata chunk in
  ("[Source " ++ showInteger (Z.of_nat index + 1) ++ "] "
   ++ DP.sourcePathOrUrl metadata
   ++ (if truthyZ (DP.page metadata)
       then " (Page " ++ showOptional (DP.page metadata) ++ ")" else "")
   ++ (if truthyZ (DP.lineStart metadata)
       then " (Lines " ++ showOptional (DP.lineStart metadata) ++ "-"
            ++ showOptional (DP.lineEnd metadata) ++ ")"
       else "")
   ++ newline ++ "Score: " ++ toFixed3 (score result)
   ++ newline ++ "Content: " ++ DP.content chunk
   ++ newline ++ "---")%string.

Fixpoint contextEntries (index : nat) (chunks : list VectorSearchResult)
    : list string :=
  match chunks with
  | [] => []
  | result :: rest => contextEntry index result :: contextEntries (S index) rest
  end.

Definition buildContext (chunks : list VectorSearchResult) : string :=
  join (newline ++ newline) (contextEntries 0 chunks).

(** [filteredChunks.find(c => c.chunk.id === doc.id)] with the score of the
    reranked document written over the original one. *)
Definition rescored (filteredChunks : list VectorSearchResult)
    (doc : ScoredDocument) : option VectorSearchResult :=
  match find (fun c => String.eqb (DP.id (chunk c)) (scored_id doc))
          filteredChunks with
  | Some originalChunk =>
      Some {| chunk := chunk originalChunk;
              score := scored_score doc;
              distance := distance originalChunk |}
  | None => None
  end.

(** The optional reranking stage. *)
Definition rerankStage (question : string) (options : option QueryOptions)
    (filteredChunks : list VectorSearchResult)
    : M (option (list VectorSearchResult)) :=
  let enableReranking :=
    match options with
    | Some o =>
        match opt_enableReranking o with
        | Some b => b
        | None => enableReranking (retrieval config)
        end
    | None => enableReranking (retrieval config)
    end in
  if enableReranking then
    let rerankTopK :=
      orConfigured (match options with Some o => opt_rerankTopK o | None => None end)
        (rerankTopK (retrieval config)) in
    let documentsToRerank :=
      map (fun result =>
             {| doc_id := DP.id (chunk result);
                doc_content := DP.content (chunk result);
                doc_score := Some (score result) |})
        filteredChunks in
    rerankedDocs <- rerank (ollama config) question documentsToRerank rerankTopK ;;
    match traverse (rescored filteredChunks) rerankedDocs with
    | Some rerankedChunks => ret (Some rerankedChunks)
    | None => throw "TypeError: Cannot read properties of undefined"
    end
  else ret None.

(** [options?.topK || this.config.retrieval.topK] *)
Definition effectiveTopK (options : option QueryOptions) : Z :=
  orConfigured (match options with Some o => opt_topK o | None => None end)
    (topK (retrieval config)).

(** The [try] block of [query], reading the store [db]. *)
Definition queryBody (db : Database) (question : string)
    (scope : option (list string)) (options : option QueryOptions)
    : M RAGQueryResult :=
  queryEmbedding <- generateEmbedding question ;;
  let topK := effectiveTopK options in
  retrievedChunks <- lift (searchSimilar db queryEmbedding topK scope) ;;
  let filteredChunks :=
    filter (fun result => geb (score result) (confidenceThreshold (retrieval config)))
      retrievedChunks in
  if Nat.eqb (List.length filteredChunks) 0 then
    ret {| response := noEvidenceResponse;
           retrievedChunks := [];
           rerankedChunks := None |}
  else
    rerankedChunks <- rerankStage question options filteredChunks ;;
    let contextChunks :=
      match rerankedChunks with
      | Some chunks => chunks
      | None => filteredChunks
      end in
    let context := buildContext contextChunks in
    response <- generateEvidenceTracedResponse (ollama config) question context 3 ;;
    ret {| response := enhanceEvidencePointers response contextChunks;
           retrievedChunks := filteredChunks;
           rerankedChunks := rerankedChunks |}.

Definition query (db : Database) (question : string)
    (scope : option (list string)) (options : option QueryOptions)
    : M RAGQueryResult :=
  tryCatch (queryBody db question scope options)
    (fun error =>
       throw ("Failed to process query: " ++ showError error)%string).

End Pipeline.

(** ** Ingestion *)

(** The value returned by [ingestURL]; the elapsed time is left out. *)
Record IngestionResult := {
  ingestedDocumentId : string;
  chunksProcessed : Z;
  embeddingsGenerated : Z;
  ingestedMetadata : DP.ProcessingMetadata
}.

(** [chunks[i].embedding = embeddings[i].embedding] for every chunk. *)
Definition withEmbedding (ce : DP.DocumentChunk * EmbeddingResult)
    : DP.DocumentChunk :=
  let c := fst ce in
  {| DP.id := DP.id c;
     DP.documentId := DP.documentId c;
     DP.chunkIndex := DP.chunkIndex c;
     DP.content := DP.content c;
     DP.metadata := DP.metadata c;
     DP.embedding := Some (embedding (snd ce)) |}.

Section Ingestion.

Context {platform : DP.Platform} {engine : Engine}.
Variable config : RAGConfig.

(** The [try] block of [ingestURL], on the store [db]; it returns the
    store after the transaction of [addChunks]. *)
Definition ingestBody (db : Database) (url content : string)
    : M (IngestionResult * Database) :=
  processingResult <- lift (DP.processURL (chunking config) url content) ;;
  let chunks := DP.processedChunks processingResult in
  let texts := map DP.content chunks in
  embeddings <- generateEmbeddings (ollama config) texts ;;
  let embedded := map withEmbedding (combine chunks embeddings) in
  db' <- lift (addChunks db embedded) ;;
  ret ({| ingestedDocumentId := DP.processedDocumentId processingResult;
          chunksProcessed := Z.of_nat (List.length chunks);
          embeddingsGenerated := Z.of_nat (List.length embeddings);
          ingestedMetadata := DP.processedMetadata processingResult |},
       db').

Definition ingestURL (db : Database) (url content : string)
    : M (IngestionResult * Database) :=
  tryCatch (ingestBody db url content)
    (fun error =>
       throw ("Failed to ingest URL " ++ url ++ ": " ++ showError error)%string).

End Ingestion.

End RAGPipeline.


(* ===================================================================== *)
(** * The chunk listing of the API                                         *)
(* ===================================================================== *)

Module RagRoutes.

(** The pagination block of the response of
    [GET /api/rag/documents/:documentId/chunks]. *)
Record Pagination := {
  page : Z;
  limit : Z;
  total : Z;
  totalPages : Z;
  hasNext : bool;
  hasPrev : bool
}.

(** [parseInt(text) || fallback] for a query parameter that is absent or
    was validated as an integer. *)
Definition parsedOr (parameter : option Z) (fallback : Z) : Z :=
  match parameter with
  | Some n => if n =? 0 then fallback else n
  | None => fallback
  end.

(** [chunks.slice(startIndex, endIndex)] *)
Definition paginate {A : Type} (chunks : list A) (page limit : Z) : list A :=
  let startIndex := (page - 1) * limit in
  let endIndex := startIndex + limit in
  slice startIndex endIndex chunks.

(** [Math.ceil(total / limit)] *)
Definition pageCount (total limit : Z) : Z := - ((- total) / limit).

Definition pagination {A : Type} (chunks : list A) (page limit : Z)
    : Pagination :=
  let startIndex := (page - 1) * limit in
  let endIndex := startIndex + limit in
  let n := Z.of_nat (List.length chunks) in
  {| page := page;
     limit := limit;
     total := n;
     totalPages := pageCount n limit;
     hasNext := endIndex <? n;
     hasPrev := 1 <? page |}.

(** The handler after validation: the page of chunks and its pagination
    block for the raw [page] and [limit] parameters. *)
Definition listChunks (db : VectorStore.Database) (documentId : string)
    (pageParameter limitParameter : option Z)
    : list DocumentProcessor.DocumentChunk * Pagination :=
  let page := parsedOr pageParameter 1 in
  let limit := parsedOr limitParameter 20 in
  let chunks := VectorStore.getChunksByDocumentId db documentId in
  (paginate chunks page limit, pagination chunks page limit).

End RagRoutes.


(* ===================================================================== *)
(** * Concrete configurations, stores and server scripts                   *)
(* ===================================================================== *)

Module Fixtures.

Import DocumentProcessor VectorStore OllamaClient RAGPipeline.

Local Open Scope string_scope.

(** ** Chunking *)

(** Chunks of at most 10 characters, overlapping by 2, of at least 5. *)
Definition smallChunks : ChunkingConfig :=
  {| chunkSize := 10; chunkOverlap := 2;
     preserveStructure := true; minChunkSize := 5 |}.

(** The same without a minimum size. *)
Definition anySizeChunks : ChunkingConfig :=
  {| chunkSize := 10; chunkOverlap := 2;
     preserveStructure := true; minChunkSize := 0 |}.

Definition noteBase : BaseMetadata :=
  {| base_documentId := "doc-1";
     base_sourceKind := DocumentProcessor.text;
     base_sourcePathOrUrl := "notes.txt";
     base_fileHash := "9f2c";
     base_pageCount := None |}.

Definition uuids : nat -> string := fun _ => "00000000-0000-4000-8000-000000000000".

Definition fourSentences : string := "aaaaa. bbbbbbb. c. ddddd.".

(** A reply in which the one claim has an empty [evidencePointers] array:
    [{claims: [{text, evidencePointers: [], guidelineIds: [], attributeIds:
    [], confidence: 0.9}], summary, overallConfidence: 0.9}]. *)
Definition pointerlessJson : json :=
  JObj
    [("claims",
       JArr
         [JObj
            [("text", JStr "Cost accounts are integrated with the schedule");
             ("evidencePointers", JArr []);
             ("guidelineIds", JArr [JStr "EIA748-1"]);
             ("attributeIds", JArr []);
             ("confidence", JNum (9 # 10))]]);
     ("summary", JStr "One finding");
     ("overallConfidence", JNum (9 # 10))].

Definition pointerlessText : string := "reply with a claim lacking pointers".

(** A runtime whose [JSON.parse] is given as a table: it decodes
    [pointerlessText] to [pointerlessJson] and rejects every other text. *)
Definition tableRuntime : Runtime :=
  {| JSON_parse :=
       fun text =>
         if String.eqb text pointerlessText then Some pointerlessJson
         else None;
     matchNumber := fun _ => None |}.

Definition plainFormatting : Formatting :=
  {| toFixed3 := fun _ => "0.000"; showInteger := fun _ => "1" |}.

Definition ollamaConfig : OllamaConfig :=
  {| baseUrl := "http://localhost:11434";
     generalModel := "llama3.1:8b";
     coderModel := None;
     embeddingModel := "bge-small-en";
     rerankerModel := None;
     temperature := 2 # 10;
     topP := 8 # 10;
     maxRetries := 3 |}.

(** A server whose generate endpoint answers with unparseable text. *)
Definition garbledServer : Server :=
  {| embeddings := fun _ => Returns [1%R; 0%R];
     script := [Responds "not json"; Rejects "timeout"; Responds "{"];
     generateCalls := [] |}.

(** A server whose first answer is the reply without evidence pointers. *)
Definition pointerlessServer : Server :=
  {| embeddings := fun _ => Returns [1%R; 0%R];
     script := [Responds pointerlessText];
     generateCalls := [] |}.

(** What [generateEvidenceTracedResponse] makes of [pointerlessJson]. *)
Definition pointerlessResponse : EvidenceTracedResponse :=
  {| claims :=
       [{| text := "Cost accounts are integrated with the schedule";
           evidencePointers := [];
           guidelineIds := ["EIA748-1"];
           attributeIds := [];
           confidence := 9 # 10 |}];
     summary := "One finding";
     overallConfidence := 9 # 10;
     evidenceGaps := None |}.

(** ** A store behind the accelerated index *)

Definition policyMetadata : ChunkMetadata :=
  {| DocumentProcessor.sourceKind := DocumentProcessor.text;
     DocumentProcessor.sourcePathOrUrl := "docs/evms-policy.txt";
     DocumentProcessor.page := None;
     DocumentProcessor.lineStart := Some 10;
     DocumentProcessor.lineEnd := Some 12;
     section := None;
     table := None;
     fileHash := "9f2c";
     meta_chunkSize := 28;
     totalChunks := 1 |}.

(** A chunk row as [addChunks] writes it for the one-dimensional embedding
    [[2]], whose binary32 encoding is the little-endian byte sequence
    00 00 00 40. *)
Definition policyRow : Row :=
  {| row_id := "chunk-1";
     row_document_id := "doc-1";
     row_chunk_index := 0;
     row_content := "Control accounts are defined";
     row_embedding := Some [x00; x00; x00; x40];
     row_metadata := policyMetadata |}.

(** The index reports distance 0.7 for the only row: similarity 0.3. *)
Definition indexedStore : Database :=
  {| document_embeddings := [policyRow];
     vec_embeddings := Some {| knn := fun _ _ => [("chunk-1", (7 / 10)%R)] |} |}.

(** The same table without the extension: only the scan is available. *)
Definition scannedStore : Database :=
  {| document_embeddings := [policyRow];
     vec_embeddings := None |}.


(** A result with similarity -1, at distance 2. *)
Definition oppositeResult : VectorSearchResult :=
  {| chunk := rowToChunk policyRow;
     score := (-1)%R;
     distance := 2%R |}.

Definition ragConfig : RAGConfig :=
  {| ollama := ollamaConfig;
     chunking := defaultConfig;
     retrieval :=
       {| topK := 5; rerankTopK := 3;
          confidenceThreshold := (1 / 2)%R;
          enableReranking := false |} |}.

Definition lowScoreResult : VectorSearchResult :=
  {| chunk := rowToChunk policyRow;
     score := (1 - 7 / 10)%R;
     distance := (7 / 10)%R |}.

(** ** A partial citation *)

(** A pointer that cites lines up to 25 without a first line. *)
Definition partialPointer : EvidencePointer :=
  {| sourcePathOrUrl := "docs/evms-policy.txt";
     page := None;
     lineStart := None;
     lineEnd := Some (25 # 1);
     snippet := None |}.

Definition citedResponse : EvidenceTracedResponse :=
  {| claims :=
       [{| text := "Control accounts are defined";
           evidencePointers := [partialPointer];
           guidelineIds := ["EIA748-1"];
           attributeIds := [];
           confidence := 8 # 10 |}];
     summary := "One finding";
     overallConfidence := 8 # 10;
     evidenceGaps := None |}.

(** The context chunk of the same source, covering lines 10 to 12. *)
Definition policyResult : VectorSearchResult :=
  {| chunk := rowToChunk policyRow;
     score := (9 / 10)%R;
     distance := (1 / 10)%R |}.

(** ** Ingestion *)

(** Identifiers that differ from one draw to the next. *)
Definition countedUuids : nat -> string :=
  fun k => "uuid-" ++ string_of_list_ascii (repeat "x"%char k).

(** A platform whose digest is constant and whose URL parser accepts every
    address but one. *)
Definition plainPlatform : Platform :=
  {| uuid := countedUuids;
     sha256Hex := fun _ => "9f2c";
     urlFileName :=
       fun url =>
         if String.eqb url "not a url" then Throws "TypeError: Invalid URL"
         else Returns "page";
     utf8ByteLength := len |}.

(** An engine that encodes every number as the bytes 00 00 00 40 and whose
    index keeps no trace of what is inserted. *)
Definition plainEngine : Engine :=
  {| float32 := fun _ => (x00, x00, x00, x40);
     vecInsert := fun vec _ _ => vec |}.

Definition ingestConfig : RAGConfig :=
  {| ollama := ollamaConfig;
     chunking := anySizeChunks;
     retrieval :=
       {| topK := 5; rerankTopK := 3;
          confidenceThreshold := (1 / 2)%R;
          enableReranking := false |} |}.


(** ** Two documents *)

(** A row of a second document, stored without an embedding. *)
Definition budgetRow : Row :=
  {| row_id := "chunk-2";
     row_document_id := "doc-2";
     row_chunk_index := 0;
     row_content := "Budgets are time-phased";
     row_embedding := None;
     row_metadata := policyMetadata |}.

Definition twoDocumentStore : Database :=
  {| document_embeddings := [policyRow; budgetRow];
     vec_embeddings := Some {| knn := fun _ _ => [] |} |}.

(** The index reports distance 0.1 for the only row: similarity 0.9. *)
Definition nearStore : Database :=
  {| document_embeddings := [policyRow];
     vec_embeddings := Some {| knn := fun _ _ => [("chunk-1", (1 / 10)%R)] |} |}.

Definition nearResult : VectorSearchResult :=
  {| chunk := rowToChunk policyRow;
     score := (1 - 1 / 10)%R;
     distance := (1 / 10)%R |}.

(** ** Servers and reranking *)

Definition rerankerConfig : OllamaConfig :=
  {| baseUrl := "http://localhost:11434";
     generalModel := "llama3.1:8b";
     coderModel := None;
     embeddingModel := "bge-small-en";
     rerankerModel := Some "bge-reranker";
     temperature := 2 # 10;
     topP := 8 # 10;
     maxRetries := 3 |}.

Definition twoDocuments : list Document :=
  [{| doc_id := "chunk-1";
      doc_content := "Control accounts are defined";
      doc_score := Some (3 / 10)%R |};
   {| doc_id := "chunk-2";
      doc_content := "Budgets are time-phased";
      doc_score := Some (8 / 10)%R |}].

(** A server that answers two generate calls. *)
Definition scoringServer : Server :=
  {| embeddings := fun _ => Returns [1%R; 0%R];
     script := [Responds "0.7"; Responds "0.2"];
     generateCalls := [] |}.

(** A server that answers the first generate call and rejects the second. *)
Definition failingReranker : Server :=
  {| embeddings := fun _ => Returns [1%R; 0%R];
     script := [Responds "0.7"; Rejects "timeout"];
     generateCalls := [] |}.

(** A server whose embedding endpoint rejects every prompt. *)
Definition refusingServer : Server :=
  {| embeddings := fun _ => Throws "connection refused";
     script := [];
     generateCalls := [] |}.

(** A server whose second answer is the first that parses. *)
Definition recoveringServer : Server :=
  {| embeddings := fun _ => Returns [1%R; 0%R];
     script := [Responds "not json"; Responds pointerlessText];
     generateCalls := [] |}.

(** A server whose embeddings have one component. *)
Definition unitServer : Server :=
  {| embeddings := fun _ => Returns [1%R];
     script := [];
     generateCalls := [] |}.

End Fixtures.
(* ===================================================================== *)
(** * Properties of the chunk metadata                                     *)
(* ===================================================================== *)

Section ChunkMetadataFacts.

Import DocumentProcessor.

Variable config : ChunkingConfig.
Variable randomUUID : nat -> string.

Lemma setTotalChunks_total (n : Z) (c : DocumentChunk) :
  totalChunks (metadata (setTotalChunks n c)) = n.
Proof. reflexivity. Qed.

Lemma setTotalChunks_content (n : Z) (c : DocumentChunk) :
  content (setTotalChunks n c) = content c.
Proof. reflexivity. Qed.

Lemma chunkText_contents (text : string) (base : BaseMetadata) :
  map content (chunkText config randomUUID text base)
  = map content
      (withFinalChunk config randomUUID base
         (runLoop config randomUUID base (splitIntoSentences text) initialState)).
Proof.
  unfold chunkText. rewrite map_map. apply map_ext. intros c.
  apply setTotalChunks_content.
Qed.

(** C8. All chunks returned by [chunkText] for one document carry the same
    [metadata.totalChunks], and that value is the number of chunks
    returned. *)
Theorem chunkText_totalChunks_uniform (text : string) (base : BaseMetadata) :
  Forall
    (fun c =>
       totalChunks (metadata c)
       = Z.of_nat (List.length (chunkText config randomUUID text base)))
    (chunkText config randomUUID text base).
Proof.
  unfold chunkText. rewrite length_map.
  apply Forall_forall. intros c Hc.
  apply in_map_iff in Hc. destruct Hc as [c0 [Heq _]].
  subst c. apply setTotalChunks_total.
Qed.

End ChunkMetadataFacts.


(* ===================================================================== *)
(** * The shape and the sizes of the chunks                                *)
(* ===================================================================== *)

Section ChunkingFacts.

Import DocumentProcessor.

Variable config : ChunkingConfig.
Variable randomUUID : nat -> string.
Variable base : BaseMetadata.

Lemma last_cons_default {A : Type} (a d : A) (l : list A) :
  last (a :: l) d = last l a.
Proof.
  revert a d. induction l as [| b l IH]; intros a d; [reflexivity |].
  change (last (a :: b :: l) d) with (last (b :: l) d).
  rewrite (IH b d). symmetry. apply IH.
Qed.

Lemma assemble_snoc (groups : list (list string)) (g : list string) :
  forall previous,
    assemble config previous (groups ++ [g])
    = assemble config previous groups
      ++ [extend (seedAfter config
                    (last (map Some (assemble config previous groups)) previous))
            g].
Proof.
  induction groups as [| g0 groups IH]; intros previous; [reflexivity |].
  simpl app. simpl assemble. rewrite IH.
  set (c := extend (seedAfter config previous) g0).
  set (L := map Some (assemble config (Some c) groups)).
  rewrite <- (last_cons_default (Some c) previous L). reflexivity.
Qed.

Lemma step_grouped (st : LoopState) (sentence : string)
    (groups : list (list string)) (g : list string) :
  groupedAs config st groups g ->
  exists groups' g',
    groupedAs config (step config randomUUID base st sentence) groups' g'
    /\ concat groups' ++ g' = concat groups ++ g ++ [sentence]
    /\ (0 <= minChunkSize config -> nonempty sentence = true ->
        wellGrouped groups g -> wellGrouped groups' g').
Proof.
  intros [Hchunks Hcur]. unfold step.
  destruct (emits config st sentence) eqn:Hemit.
  - exists (groups ++ [g]), [sentence]. split; [split | split].
    + simpl chunks. rewrite map_app, Hchunks, assemble_snoc. simpl.
      rewrite Hcur. reflexivity.
    + simpl currentChunk. rewrite assemble_snoc, map_app. simpl map.
      rewrite last_last. simpl. rewrite Hcur. reflexivity.
    + rewrite concat_app. simpl. rewrite app_nil_r, <- app_assoc. reflexivity.
    + intros Hmin Hs [Hgroups [Hg Hstart]]. split; [| split].
      * apply Forall_app. split; [exact Hgroups |].
        constructor; [| constructor]. split; [| exact Hg].
        intros ->. rewrite (Hstart eq_refl) in Hcur. simpl in Hcur.
        unfold emits in Hemit. apply andb_prop in Hemit.
        destruct Hemit as [_ Hlong]. apply Z.ltb_lt in Hlong.
        rewrite Hcur in Hlong. unfold len in Hlong. simpl in Hlong. lia.
      * constructor; [exact Hs | constructor].
      * discriminate.
  - exists groups, (g ++ [sentence]). split; [split | split].
    + exact Hchunks.
    + simpl currentChunk. rewrite Hcur. unfold extend.
      rewrite fold_left_app. reflexivity.
    + reflexivity.
    + intros _ Hs [Hgroups [Hg _]]. split; [exact Hgroups | split].
      * apply Forall_app. split; [exact Hg | constructor; [exact Hs | constructor]].
      * intros Hnil. destruct g; discriminate.
Qed.

Lemma runLoop_grouped (sentences : list string) :
  forall (st : LoopState) (groups : list (list string)) (g : list string),
    groupedAs config st groups g ->
    exists groups' g',
      groupedAs config (runLoop config randomUUID base sentences st) groups' g'
      /\ concat groups' ++ g' = concat groups ++ g ++ sentences
      /\ (0 <= minChunkSize config ->
          Forall (fun s => nonempty s = true) sentences ->
          wellGrouped groups g -> wellGrouped groups' g').
Proof.
  induction sentences as [| s sentences IH]; intros st groups g Hst.
  - exists groups, g. split; [exact Hst | split].
    + rewrite app_nil_r. reflexivity.
    + intros _ _ H. exact H.
  - destruct (step_grouped st s groups g Hst) as [groups1 [g1 [H1 [Hcat1 Hwell1]]]].
    destruct (IH _ groups1 g1 H1) as [groups' [g' [H' [Hcat' Hwell']]]].
    exists groups', g'. split; [exact H' | split].
    + simpl runLoop in *. rewrite Hcat', app_assoc, Hcat1.
      rewrite <- !app_assoc. reflexivity.
    + intros Hmin Hall Hwell. inversion Hall as [| ? ? Hs Hrest]; subst.
      apply Hwell'; [exact Hmin | exact Hrest |].
      apply Hwell1; [exact Hmin | exact Hs | exact Hwell].
Qed.

(** ** Removing the overlap *)

Local Open Scope string_scope.

Lemma append_empty_r (s : string) : s ++ "" = s.
Proof. induction s as [| c s IH]; simpl; [reflexivity | rewrite IH; reflexivity]. Qed.

Lemma append_associative (a b c : string) : (a ++ b) ++ c = a ++ b ++ c.
Proof. induction a as [| x a IH]; simpl; [reflexivity | rewrite IH; reflexivity]. Qed.

Lemma substring_all (s : string) : substring 0 (String.length s) s = s.
Proof. induction s as [| c s IH]; simpl; [reflexivity | rewrite IH; reflexivity]. Qed.

Lemma substring_after_prefix (a x : string) :
  substring (String.length a) (String.length (a ++ x) - String.length a) (a ++ x)
  = x.
Proof.
  induction a as [| c a IH]; simpl.
  - rewrite Nat.sub_0_r. apply substring_all.
  - exact IH.
Qed.

Lemma append_spaced_split (seed x : string) :
  append_spaced seed x = append_spaced seed "" ++ x.
Proof.
  unfold append_spaced. rewrite append_empty_r, append_associative. reflexivity.
Qed.

Lemma stripSeed_seeded (previous x : string) :
  stripSeed config previous
    (append_spaced (getOverlapText config previous) x) = x.
Proof.
  unfold stripSeed. rewrite (append_spaced_split _ x).
  apply substring_after_prefix.
Qed.

Lemma nonempty_append (a b : string) :
  nonempty a = true -> nonempty (a ++ b) = true.
Proof. destruct a; [discriminate | reflexivity]. Qed.

(** The sentences after the first, each behind its separating space. *)
Lemma extend_nonempty_seed (rest : list string) :
  forall acc,
    nonempty acc = true ->
    extend acc rest
    = acc ++ fold_right (fun s tail => " " ++ s ++ tail) "" rest.
Proof.
  induction rest as [| s rest IH]; intros acc Hacc.
  - simpl. rewrite append_empty_r. reflexivity.
  - change (extend acc (s :: rest)) with (extend (append_spaced acc s) rest).
    rewrite IH.
    + unfold append_spaced. rewrite Hacc. simpl fold_right.
      rewrite !append_associative. reflexivity.
    + unfold append_spaced. apply nonempty_append. exact Hacc.
Qed.

Lemma join_cons (s : string) (rest : list string) :
  join " " (s :: rest)
  = s ++ fold_right (fun r tail => " " ++ r ++ tail) "" rest.
Proof.
  revert s. induction rest as [| r rest IH]; intros s.
  - simpl. rewrite append_empty_r. reflexivity.
  - unfold join in *. change (String.concat " " (s :: r :: rest))
      with (s ++ " " ++ String.concat " " (r :: rest)).
    rewrite IH. reflexivity.
Qed.

Lemma extend_join (seed : string) (g : list string) :
  g <> [] -> Forall (fun s => nonempty s = true) g ->
  extend seed g = append_spaced seed (join " " g).
Proof.
  intros Hne Hall. destruct g as [| s rest]; [contradiction |].
  inversion Hall as [| ? ? Hs _]; subst.
  change (extend seed (s :: rest)) with (extend (append_spaced seed s) rest).
  rewrite extend_nonempty_seed.
  - rewrite join_cons. unfold append_spaced.
    rewrite !append_associative. reflexivity.
  - unfold append_spaced. destruct seed; simpl; [exact Hs | reflexivity].
Qed.

Lemma withoutOverlap_assemble (groups : list (list string)) :
  Forall (fun g0 => g0 <> [] /\ Forall (fun s => nonempty s = true) g0) groups ->
  forall previous,
    withoutOverlap config previous (assemble config previous groups)
    = map (join " ") groups.
Proof.
  induction groups as [| g groups IH]; intros Hall previous; [reflexivity |].
  inversion Hall as [| ? ? [Hne Hg] Hrest]; subst.
  simpl. rewrite (IH Hrest). f_equal.
  rewrite (extend_join _ g Hne Hg).
  destruct previous as [p |]; simpl.
  - apply stripSeed_seeded.
  - reflexivity.
Qed.

Lemma join_app (l1 l2 : list string) :
  l1 <> [] -> l2 <> [] ->
  join " " (l1 ++ l2) = join " " l1 ++ " " ++ join " " l2.
Proof.
  intros H1 H2. destruct l1 as [| a l1]; [contradiction |]. clear H1.
  revert a. induction l1 as [| b l1 IH]; intros a.
  - destruct l2 as [| c l2]; [contradiction |]. reflexivity.
  - unfold join in *.
    change (String.concat " " ((a :: b :: l1) ++ l2)%list)
      with (a ++ " " ++ String.concat " " ((b :: l1) ++ l2)%list).
    rewrite IH.
    change (String.concat " " (a :: b :: l1))
      with (a ++ " " ++ String.concat " " (b :: l1)).
    rewrite !append_associative. reflexivity.
Qed.

Lemma join_groups (groups : list (list string)) :
  Forall (fun g0 => g0 <> [] /\ Forall (fun s => nonempty s = true) g0) groups ->
  join " " (map (join " ") groups) = join " " (concat groups).
Proof.
  induction groups as [| g groups IH]; intros Hall; [reflexivity |].
  inversion Hall as [| ? ? [Hne _] Hrest]; subst.
  destruct groups as [| g' groups].
  - simpl. rewrite app_nil_r. reflexivity.
  - change (map (join " ") (g :: g' :: groups))
      with ([join " " g] ++ map (join " ") (g' :: groups))%list.
    rewrite join_app; [| discriminate | discriminate].
    rewrite (IH Hrest).
    change (join " " [join " " g]) with (join " " g).
    change (concat (g :: g' :: groups)) with (g ++ concat (g' :: groups))%list.
    rewrite join_app; [reflexivity | exact Hne |].
    inversion Hrest as [| ? ? [Hne' _] _]; subst.
    destruct g'; [contradiction | discriminate].
Qed.

Local Close Scope string_scope.

Lemma splitIntoSentences_nonempty (text : string) :
  Forall (fun s => nonempty s = true) (splitIntoSentences text).
Proof.
  apply Forall_forall. intros s Hs. unfold splitIntoSentences in Hs.
  apply filter_In in Hs. exact (proj2 Hs).
Qed.

(** C5 (amended). The chunk contents are assembled from consecutive groups
    of the text's sentences: the first chunk is its group joined by single
    spaces, each later one is the overlap text of the chunk before it
    extended by its group.  The groups in order make up the sentence list,
    up to the sentences of a trailing buffer that is dropped for being
    shorter than [minChunkSize].  For a non-negative [minChunkSize], the
    chunks without the overlap taken over from their predecessors, joined
    by single spaces, are those sentences joined by single spaces. *)
Theorem chunks_assemble_sentence_groups (text : string) :
  exists (groups : list (list string)) (dropped : list string),
    map content (chunkText config randomUUID text base)
    = assemble config None groups
    /\ concat groups ++ dropped = splitIntoSentences text
    /\ (dropped = []
        \/ len (extend
                 (seedAfter config
                    (last (map Some (assemble config None groups)) None))
                 dropped)
           < minChunkSize config)
    /\ (0 <= minChunkSize config ->
        reconstruction config
          (map content (chunkText config randomUUID text base))
        = join " " (concat groups)).
Proof.
  rewrite chunkText_contents.
  destruct (runLoop_grouped (splitIntoSentences text) initialState [] [])
    as [groups [g [[Hchunks Hcur] [Hcat Hwell]]]].
  { split; reflexivity. }
  simpl in Hcat. unfold withFinalChunk.
  assert (Hgood : 0 <= minChunkSize config -> wellGrouped groups g).
  { intros Hmin. apply Hwell; [exact Hmin | apply splitIntoSentences_nonempty |].
    split; [constructor | split; [constructor | reflexivity]]. }
  destruct (keepsFinal config
              (runLoop config randomUUID base (splitIntoSentences text)
                 initialState)) eqn:Hkeep.
  - exists (groups ++ [g]), []. split; [| split; [| split]].
    + rewrite map_app, Hchunks, assemble_snoc. simpl. rewrite Hcur. reflexivity.
    + rewrite app_nil_r, concat_app. simpl. rewrite app_nil_r. exact Hcat.
    + left. reflexivity.
    + intros Hmin. destruct (Hgood Hmin) as [Hgroups [Hg Hstart]].
      unfold reconstruction.
      rewrite map_app, Hchunks. simpl map. rewrite Hcur, <- assemble_snoc.
      destruct g as [| s rest].
      * rewrite (Hstart eq_refl). reflexivity.
      * assert (Hall : Forall
                  (fun g0 => g0 <> [] /\ Forall (fun s => nonempty s = true) g0)
                  (groups ++ [s :: rest])).
        { apply Forall_app. split; [exact Hgroups |].
          constructor; [| constructor]. split; [discriminate | exact Hg]. }
        rewrite (withoutOverlap_assemble _ Hall). apply join_groups. exact Hall.
  - exists groups, g. split; [exact Hchunks | split; [exact Hcat | split]].
    + right. rewrite <- Hcur. unfold keepsFinal in Hkeep.
      apply Z.leb_gt in Hkeep. exact Hkeep.
    + intros Hmin. destruct (Hgood Hmin) as [Hgroups _].
      unfold reconstruction. rewrite Hchunks.
      rewrite (withoutOverlap_assemble _ Hgroups). apply join_groups.
      exact Hgroups.
Qed.

(** ** Sizes *)

Lemma softCapException_grows (sentences contents more : list string)
    (i : nat) (c : string) :
  softCapException config sentences contents i c ->
  softCapException config sentences (contents ++ more) i c.
Proof.
  intros [prefix [s [Hc [Hs Hprefix]]]]. exists prefix, s.
  split; [exact Hc | split; [exact Hs |]].
  destruct Hprefix as [Hshort | [j [p [Hj [Hp Hov]]]]]; [left; exact Hshort |].
  right. exists j, p. split; [exact Hj | split; [| exact Hov]].
  rewrite nth_error_app1; [exact Hp |].
  apply nth_error_Some. rewrite Hp. discriminate.
Qed.

Lemma withinCap_grows (sentences contents more : list string)
    (i : nat) (c : string) :
  withinCap config sentences contents i c ->
  withinCap config sentences (contents ++ more) i c.
Proof.
  intros [H | H]; [left; exact H | right].
  apply softCapException_grows. exact H.
Qed.

Lemma nth_error_snoc {A : Type} (l : list A) (x y : A) (i : nat) :
  nth_error (l ++ [x]) i = Some y ->
  nth_error l i = Some y \/ (i = List.length l /\ y = x).
Proof.
  intros H. destruct (Nat.lt_ge_cases i (List.length l)) as [Hlt | Hge].
  - left. rewrite nth_error_app1 in H; assumption.
  - right. rewrite nth_error_app2 in H by exact Hge.
    destruct (i - List.length l)%nat as [| k] eqn:Hk; simpl in H.
    + injection H as <-. split; [lia | reflexivity].
    + destruct k; discriminate.
Qed.

Lemma step_capped (sentences : list string) (st : LoopState) (sentence : string) :
  In sentence sentences ->
  capped config sentences st ->
  capped config sentences (step config randomUUID base st sentence).
Proof.
  intros Hin [Hcap Hbuf]. unfold step.
  destruct (emits config st sentence) eqn:Hemit; unfold capped; simpl chunks;
    simpl currentChunk.
  - rewrite map_app. simpl map. split.
    + intros i c Hi. apply nth_error_snoc in Hi.
      destruct Hi as [Hi | [-> ->]]; apply withinCap_grows.
      * apply Hcap. exact Hi.
      * exact Hbuf.
    + right. exists (getOverlapText config (currentChunk st)), sentence.
      split; [reflexivity | split; [exact Hin |]].
      right. exists (List.length (map content (chunks st))), (currentChunk st).
      split; [rewrite length_app; simpl; lia | split; [| reflexivity]].
      rewrite nth_error_app2 by lia. rewrite Nat.sub_diag. reflexivity.
  - split; [exact Hcap |].
    unfold emits in Hemit. apply andb_false_iff in Hemit.
    destruct Hemit as [Hfit | Hshort].
    + left. apply Z.ltb_ge in Hfit. exact Hfit.
    + right. exists (currentChunk st), sentence.
      split; [reflexivity | split; [exact Hin |]].
      left. apply Z.ltb_ge in Hshort. exact Hshort.
Qed.

Lemma runLoop_capped (sentences : list string) (todo : list string) :
  forall st,
    incl todo sentences ->
    capped config sentences st ->
    capped config sentences (runLoop config randomUUID base todo st).
Proof.
  induction todo as [| s todo IH]; intros st Hincl Hst; [exact Hst |].
  simpl. apply IH.
  - intros x Hx. apply Hincl. right. exact Hx.
  - apply step_capped; [apply Hincl; left; reflexivity | exact Hst].
Qed.

(** Every chunk emitted inside the loop is longer than [minChunkSize]. *)
Lemma runLoop_longer (todo : list string) :
  forall st,
    (forall x, In x (map content (chunks st)) -> minChunkSize config < len x) ->
    forall x,
      In x (map content (chunks (runLoop config randomUUID base todo st))) ->
      minChunkSize config < len x.
Proof.
  induction todo as [| s todo IH]; intros st Hst; [exact Hst |].
  simpl. apply IH. unfold step.
  destruct (emits config st s) eqn:Hemit; simpl chunks; [| exact Hst].
  unfold emits in Hemit. apply andb_prop in Hemit.
  destruct Hemit as [_ Hlong]. apply Z.ltb_lt in Hlong.
  intros x Hx. rewrite map_app in Hx. apply in_app_or in Hx.
  destruct Hx as [Hx | [<- | []]]; [apply Hst; exact Hx | exact Hlong].
Qed.

(** C6 (amended). Every chunk is at least [minChunkSize] long, and longer
    than [minChunkSize] unless it is the last one.  For a non-negative
    [chunkSize], a chunk is at most [chunkSize] long unless its last
    sentence was appended to a buffer of at most [minChunkSize] characters
    (the empty buffer for a single sentence) or to the overlap text of the
    chunk before it. *)
Theorem chunk_sizes (text : string) (i : nat) (c : string) :
  nth_error (map content (chunkText config randomUUID text base)) i = Some c ->
  minChunkSize config <= len c
  /\ (S i <> List.length (map content (chunkText config randomUUID text base)) ->
      minChunkSize config < len c)
  /\ (0 <= chunkSize config ->
      len c <= chunkSize config
      \/ softCapException config (splitIntoSentences text)
           (map content (chunkText config randomUUID text base)) i c).
Proof.
  rewrite chunkText_contents. unfold withFinalChunk.
  set (sentences := splitIntoSentences text).
  set (st := runLoop config randomUUID base sentences initialState).
  assert (Hcapped : 0 <= chunkSize config -> capped config sentences st).
  { intros Hsize. apply runLoop_capped; [apply incl_refl |]. split.
    - intros k x Hk. destruct k; discriminate.
    - left. exact Hsize. }
  assert (Hmin : forall x, In x (map content (chunks st)) ->
                   minChunkSize config < len x).
  { apply runLoop_longer. intros x []. }
  destruct (keepsFinal config st) eqn:Hkeep.
  - rewrite map_app. simpl map. intros Hi.
    apply nth_error_snoc in Hi. destruct Hi as [Hi | [-> ->]].
    + pose proof (Hmin c (nth_error_In _ _ Hi)) as Hc.
      split; [lia | split; [intros _; exact Hc |]].
      intros Hsize. destruct (Hcapped Hsize) as [Hcap _].
      apply (withinCap_grows _ _ [currentChunk st]). apply Hcap. exact Hi.
    + unfold keepsFinal in Hkeep. apply Z.leb_le in Hkeep.
      split; [exact Hkeep | split].
      * intros Hnot. exfalso. apply Hnot. rewrite length_app. simpl. lia.
      * intros Hsize. destruct (Hcapped Hsize) as [_ Hbuf].
        apply (withinCap_grows _ _ [currentChunk st]). exact Hbuf.
  - intros Hi. pose proof (Hmin c (nth_error_In _ _ Hi)) as Hc.
    split; [lia | split; [intros _; exact Hc |]].
    intros Hsize. destruct (Hcapped Hsize) as [Hcap _]. apply Hcap. exact Hi.
Qed.

End ChunkingFacts.

(** Witness of C5 (amended): the four-sentence text in small chunks. *)
Lemma chunks_assemble_sentence_groups_witness :
  exists (groups : list (list string)) (dropped : list string),
    map DocumentProcessor.content
      (DocumentProcessor.chunkText Fixtures.smallChunks Fixtures.uuids
         Fixtures.fourSentences Fixtures.noteBase)
    = DocumentProcessor.assemble Fixtures.smallChunks None groups
    /\ concat groups ++ dropped
       = DocumentProcessor.splitIntoSentences Fixtures.fourSentences
    /\ (dropped = []
        \/ Js.len
             (DocumentProcessor.extend
                (DocumentProcessor.seedAfter Fixtures.smallChunks
                   (last
                      (map Some
                         (DocumentProcessor.assemble Fixtures.smallChunks None
                            groups))
                      None))
                dropped)
           < 5)
    /\ (0 <= 5 ->
        DocumentProcessor.reconstruction Fixtures.smallChunks
          (map DocumentProcessor.content
             (DocumentProcessor.chunkText Fixtures.smallChunks Fixtures.uuids
                Fixtures.fourSentences Fixtures.noteBase))
        = Js.join " " (concat groups)).
Proof.
  apply (chunks_assemble_sentence_groups Fixtures.smallChunks Fixtures.uuids
           Fixtures.noteBase Fixtures.fourSentences).
Defined.

(** The chunks of the four-sentence text. *)
Lemma fourSentences_contents :
  map DocumentProcessor.content
    (DocumentProcessor.chunkText Fixtures.smallChunks Fixtures.uuids
       Fixtures.fourSentences Fixtures.noteBase)
  = ["aaaaa bbbbbbb"; "aaaaa bbbbbbb c"; "aaaaa bbbbbbb c ddddd"]%string.
Proof. reflexivity. Qed.

(** C6 (counterexample). With [chunkSize = 10] and [minChunkSize = 5] the
    first of three chunks is 'aaaaa bbbbbbb': 13 characters, two sentences
    of 5 and 7 characters, neither the last chunk nor a single sentence. *)
Lemma first_chunk_exceeds_chunkSize :
  ~ DocumentProcessor.sizeBound Fixtures.smallChunks Fixtures.fourSentences
      (map DocumentProcessor.content
         (DocumentProcessor.chunkText Fixtures.smallChunks Fixtures.uuids
            Fixtures.fourSentences Fixtures.noteBase)).
Proof.
  rewrite fourSentences_contents. intros Hbound.
  destruct (Hbound 0%nat "aaaaa bbbbbbb"%string) as [_ Hcap].
  - reflexivity.
  - simpl. discriminate.
  - intros [Hin _]. vm_compute in Hin.
    repeat (destruct Hin as [Hin | Hin]; [discriminate |]). exact Hin.
  - vm_compute in Hcap. apply Hcap. reflexivity.
Qed.

(** Witness of C6 (amended): the first chunk of the four-sentence text. *)
Lemma chunk_sizes_witness :
  (5 <= Js.len "aaaaa bbbbbbb")
  /\ (1%nat <> 3%nat -> 5 < Js.len "aaaaa bbbbbbb")
  /\ (0 <= 10 ->
      Js.len "aaaaa bbbbbbb" <= 10
      \/ DocumentProcessor.softCapException Fixtures.smallChunks
           (DocumentProcessor.splitIntoSentences Fixtures.fourSentences)
           (map DocumentProcessor.content
              (DocumentProcessor.chunkText Fixtures.smallChunks Fixtures.uuids
                 Fixtures.fourSentences Fixtures.noteBase))
           0 "aaaaa bbbbbbb").
Proof.
  apply (chunk_sizes Fixtures.smallChunks Fixtures.uuids Fixtures.noteBase
           Fixtures.fourSentences 0 "aaaaa bbbbbbb"%string).
  reflexivity.
Defined.

(** C5 (counterexample). The text 'Hi.' is not reconstructed: without a
    minimum size its only chunk is 'Hi', the full stop being consumed by
    the sentence split; with the default configuration no chunk is
    produced at all. *)
Lemma punctuation_not_reconstructed :
  map DocumentProcessor.content
    (DocumentProcessor.chunkText Fixtures.anySizeChunks Fixtures.uuids "Hi."
       Fixtures.noteBase) = ["Hi"%string]
  /\ DocumentProcessor.reconstruction Fixtures.anySizeChunks
       (map DocumentProcessor.content
          (DocumentProcessor.chunkText Fixtures.anySizeChunks Fixtures.uuids
             "Hi." Fixtures.noteBase)) <> "Hi."%string
  /\ DocumentProcessor.chunkText DocumentProcessor.defaultConfig Fixtures.uuids
       "Hi." Fixtures.noteBase = []
  /\ DocumentProcessor.reconstruction DocumentProcessor.defaultConfig
       (map DocumentProcessor.content
          (DocumentProcessor.chunkText DocumentProcessor.defaultConfig
             Fixtures.uuids "Hi." Fixtures.noteBase)) <> "Hi."%string.
Proof.
  repeat split; try reflexivity; vm_compute; discriminate.
Qed.


(* ===================================================================== *)
(** * Bounded-retry generation                                             *)
(* ===================================================================== *)

Section GenerationFacts.

Import OllamaClient.

Context {runtime : Runtime}.
Variable config : OllamaConfig.

Lemma attemptOnce_accepts (s : Server) (reply : Reply) (rest : list Reply)
    (v : EvidenceTracedResponse) :
  script s = reply :: rest ->
  accepted reply = Some v ->
  attemptOnce config s = (Returns v, consumed (generationModel config) s).
Proof.
  intros Hs Hv. unfold attemptOnce, bind, client_generate. rewrite Hs.
  destruct reply as [e | response]; simpl in Hv; [discriminate |].
  destruct (JSON_parse response) as [parsed |]; [| discriminate].
  rewrite Hv. reflexivity.
Qed.

Lemma attemptOnce_rejects (s : Server) :
  Forall (fun reply => accepted reply = None) (firstn 1 (script s)) ->
  exists e, attemptOnce config s = (Throws e, consumed (generationModel config) s).
Proof.
  intros Hf. unfold attemptOnce, bind, client_generate.
  destruct (script s) as [| [e | response] rest] eqn:Hs.
  - eexists. reflexivity.
  - eexists. reflexivity.
  - simpl in Hf. inversion Hf as [| ? ? Hhead _]. subst. simpl in Hhead.
    destruct (JSON_parse response) as [parsed |].
    + rewrite Hhead. eexists. reflexivity.
    + eexists. reflexivity.
Qed.

Lemma firstn_tail_fail {A : Type} (P : A -> Prop) (n : nat) (l : list A) :
  Forall P (firstn (S n) l) -> Forall P (firstn 1 l) /\ Forall P (firstn n (tl l)).
Proof.
  destruct l as [| a l]; simpl.
  - intros _. split; [constructor |]. rewrite firstn_nil. constructor.
  - intros H. inversion H; subst. split; [repeat constructor; assumption | assumption].
Qed.

(** The loop run for [n >= 1] iterations that all fail: the last one
    returns the no-claim response, after [n] generate calls. *)
Lemma attempts_all_fail (n : nat) :
  forall (attempt retries : Z) (s : Server),
    attempt + Z.of_nat (S n) = retries ->
    Forall (fun reply => accepted reply = None) (firstn (S n) (script s)) ->
    exists s',
      attempts config (S n) attempt retries s = (Returns noClaimResponse, s')
      /\ generateCalls s' = generateCalls s ++ repeat (generationModel config) (S n)
      /\ script s' = skipn (S n) (script s).
Proof.
  induction n as [| n IH]; intros attempt retries s Hsum Hfail.
  - destruct (attemptOnce_rejects s Hfail) as [e He].
    exists (consumed (generationModel config) s). simpl. unfold tryCatch. rewrite He.
    replace (attempt =? retries - 1) with true by (symmetry; apply Z.eqb_eq; lia).
    split; [reflexivity | split; [reflexivity |]].
    simpl. destruct (script s); reflexivity.
  - apply firstn_tail_fail in Hfail. destruct Hfail as [Hhead Htail].
    destruct (attemptOnce_rejects s Hhead) as [e He].
    destruct (IH (attempt + 1) retries (consumed (generationModel config) s)) as [s' [Hrun [Hcalls Hscript]]].
    + lia.
    + exact Htail.
    + exists s'. split; [| split].
      * change (attempts config (S (S n)) attempt retries s)
          with (tryCatch (attemptOnce config)
                  (fun _ => if attempt =? retries - 1 then ret noClaimResponse
                            else attempts config (S n) (attempt + 1) retries) s).
        unfold tryCatch at 1. rewrite He.
        replace (attempt =? retries - 1) with false by (symmetry; apply Z.eqb_neq; lia).
        exact Hrun.
      * rewrite Hcalls. simpl. rewrite <- app_assoc. reflexivity.
      * rewrite Hscript. simpl. destruct (script s); [| reflexivity].
        simpl. destruct n; reflexivity.
Qed.

(** Whatever the loop returns was validated by the schema or is the
    no-claim response. *)
Lemma attempts_return_validated (n : nat) :
  forall (attempt retries : Z) (s s' : Server) (v : EvidenceTracedResponse),
    attempts config n attempt retries s = (Returns v, s') ->
    v = noClaimResponse
    \/ exists reply, In reply (script s) /\ accepted reply = Some v.
Proof.
  induction n as [| n IH]; intros attempt retries s s' v Hrun; [discriminate |].
  simpl in Hrun. unfold tryCatch in Hrun.
  destruct (script s) as [| reply rest] eqn:Hs.
  - destruct (attemptOnce_rejects s) as [e He].
    { rewrite Hs. constructor. }
    rewrite He in Hrun.
    destruct (attempt =? retries - 1).
    + injection Hrun as <- _. left. reflexivity.
    + apply IH in Hrun. destruct Hrun as [Hv | [r [Hin _]]]; [left; exact Hv |].
      simpl in Hin. rewrite Hs in Hin. destruct Hin.
  - destruct (accepted reply) as [v0 |] eqn:Hacc.
    + rewrite (attemptOnce_accepts s reply rest v0 Hs Hacc) in Hrun.
      injection Hrun as <- _. right. exists reply. split; [left; reflexivity | exact Hacc].
    + destruct (attemptOnce_rejects s) as [e He].
      { rewrite Hs. simpl. constructor; [exact Hacc | constructor]. }
      rewrite He in Hrun.
      destruct (attempt =? retries - 1).
      * injection Hrun as <- _. left. reflexivity.
      * apply IH in Hrun.
        destruct Hrun as [Hv | [r [Hin Hr]]]; [left; exact Hv |].
        right. exists r. split; [| exact Hr].
        simpl in Hin. rewrite Hs in Hin. right. exact Hin.
Qed.

(** A reply that the schema accepts is returned by the first attempt. *)
Lemma first_attempt_returns (question context : string) (retries : Z)
    (s : Server) (reply : Reply) (rest : list Reply)
    (v : EvidenceTracedResponse) :
  1 <= retries ->
  script s = reply :: rest ->
  accepted reply = Some v ->
  generateEvidenceTracedResponse config question context retries s
  = (Returns v, consumed (generationModel config) s).
Proof.
  intros Hpos Hs Hv. unfold generateEvidenceTracedResponse.
  destruct (Z.to_nat retries) as [| n] eqn:Hn; [lia |].
  simpl. unfold tryCatch. rewrite (attemptOnce_accepts s reply rest v Hs Hv).
  reflexivity.
Qed.

(** C3. With a budget of at least one attempt, when every attempt fails
    (the call rejects, the text is not JSON, or the schema rejects it),
    [generateEvidenceTracedResponse] returns the fixed degraded response:
    no claims, the insufficient-evidence summary, confidence 0 and one
    evidence gap; it does not throw, and it made exactly [retries] calls. *)
Theorem all_failed_attempts_degrade (question context : string) (retries : Z)
    (server : Server) :
  1 <= retries ->
  Forall (fun reply => accepted reply = None)
    (firstn (Z.to_nat retries) (script server)) ->
  exists server',
    generateEvidenceTracedResponse config question context retries server
    = (Returns
         {| claims := [];
            summary := "Insufficient evidence to make reliable claims";
            overallConfidence := 0;
            evidenceGaps :=
              Some ["Unable to process context or generate valid response"%string] |},
       server')
    /\ generateCalls server'
       = generateCalls server ++ repeat (generationModel config) (Z.to_nat retries).
Proof.
  intros Hpos Hfail. unfold generateEvidenceTracedResponse.
  destruct (Z.to_nat retries) as [| n] eqn:Hn; [lia |].
  destruct (attempts_all_fail n 0 retries server) as [s' [Hrun [Hcalls _]]].
  - lia.
  - exact Hfail.
  - exists s'. split; [exact Hrun | exact Hcalls].
Qed.

(** C10. With a budget of zero or less no attempt runs, the server is left
    untouched and the call throws 'All retry attempts failed'; hence a
    call that returns a response, degraded or not, had a budget of at least
    one attempt. *)
Theorem zero_budget_throws (question context : string) (retries : Z)
    (server : Server) :
  (retries <= 0 ->
   generateEvidenceTracedResponse config question context retries server
   = (Throws "All retry attempts failed", server))
  /\ (forall response server',
        generateEvidenceTracedResponse config question context retries server
        = (Returns response, server') ->
        1 <= retries).
Proof.
  assert (Hzero : retries <= 0 ->
            generateEvidenceTracedResponse config question context retries server
            = (Throws "All retry attempts failed", server)).
  { intros Hle. unfold generateEvidenceTracedResponse.
    replace (Z.to_nat retries) with O by lia. reflexivity. }
  split; [exact Hzero |].
  intros response server' Hret.
  destruct (Z_le_gt_dec retries 0) as [Hle | Hgt]; [| lia].
  rewrite (Hzero Hle) in Hret. discriminate.
Qed.

End GenerationFacts.

(** Witness of C3: three garbled answers and a budget of three. *)
Lemma all_failed_attempts_degrade_witness :
  1 <= 3
  /\ exists server',
       OllamaClient.generateEvidenceTracedResponse
         (runtime := Fixtures.tableRuntime) Fixtures.ollamaConfig
         "question" "context" 3 Fixtures.garbledServer
       = (Js.Returns OllamaClient.noClaimResponse, server')
       /\ OllamaClient.generateCalls server'
          = ["llama3.1:8b"; "llama3.1:8b"; "llama3.1:8b"]%string.
Proof.
  split; [lia |].
  apply (all_failed_attempts_degrade (runtime := Fixtures.tableRuntime)
           Fixtures.ollamaConfig "question" "context" 3 Fixtures.garbledServer).
  - lia.
  - repeat constructor.
Defined.

(** Witness of C10: a budget of zero on a server that would answer. *)
Lemma zero_budget_throws_witness :
  0 <= 0
  /\ OllamaClient.generateEvidenceTracedResponse
       (runtime := Fixtures.tableRuntime) Fixtures.ollamaConfig
       "question" "context" 0 Fixtures.pointerlessServer
     = (Js.Throws "All retry attempts failed", Fixtures.pointerlessServer).
Proof.
  split; [lia |].
  apply (proj1 (zero_budget_throws (runtime := Fixtures.tableRuntime)
                  Fixtures.ollamaConfig "question" "context" 0
                  Fixtures.pointerlessServer)).
  lia.
Defined.

(** C2 (evaluation at the failing input). The reply whose only claim has an
    empty [evidencePointers] array passes the schema: the first attempt
    returns it, after a single generate call and without a retry. *)
Theorem pointerless_claim_accepted :
  OllamaClient.generateEvidenceTracedResponse
    (runtime := Fixtures.tableRuntime) Fixtures.ollamaConfig
    "question" "context" 3 Fixtures.pointerlessServer
  = (Js.Returns Fixtures.pointerlessResponse,
     {| OllamaClient.embeddings := OllamaClient.embeddings Fixtures.pointerlessServer;
        OllamaClient.script := [];
        OllamaClient.generateCalls := ["llama3.1:8b"%string] |})
  /\ map OllamaClient.evidencePointers
       (OllamaClient.claims Fixtures.pointerlessResponse) = [[]].
Proof. split; reflexivity. Qed.


(* ===================================================================== *)
(** * The confidence filter of the query                                   *)
(* ===================================================================== *)

Section QueryFacts.

Import VectorStore OllamaClient RAGPipeline.

Context {runtime : Runtime} {formatting : Formatting}.
Variable config : RAGConfig.

Lemma filter_none {A : Type} (f : A -> bool) (l : list A) :
  (forall a, In a l -> f a = false) -> filter f l = [].
Proof.
  induction l as [| a l IH]; intros H; simpl; [reflexivity |].
  rewrite (H a (or_introl eq_refl)). apply IH.
  intros b Hb. apply H. right. exact Hb.
Qed.

Lemma geb_false (a b : R) : ~ (b <= a)%R -> geb a b = false.
Proof. intros H. unfold geb. destruct (Rle_dec b a); [contradiction | reflexivity]. Qed.

(** C1. When the embedding of the question succeeds and none of the
    retrieved chunks has a score at or above [confidenceThreshold],
    [query] returns the empty-evidence response (no claims, the summary
    'No relevant evidence found for the query', overall confidence 0) with
    no retrieved chunks, and leaves the server as it found it: the script
    of the generate endpoint is not consumed and no generate call is
    logged. *)
Theorem query_without_evidence_short_circuits (db : Database)
    (question : string) (scope : option (list string))
    (options : option QueryOptions) (server : Server)
    (embedding : list R) (retrieved : list VectorSearchResult) :
  embeddings server question = Returns embedding ->
  searchSimilar db embedding (effectiveTopK config options) scope
  = Returns retrieved ->
  (forall result, In result retrieved ->
     ~ (confidenceThreshold (retrieval config) <= score result)%R) ->
  query config db question scope options server
  = (Returns
       {| response :=
            {| claims := [];
               summary := "No relevant evidence found for the query";
               overallConfidence := 0;
               evidenceGaps :=
                 Some ["Insufficient relevant documents in knowledge base"%string] |};
          retrievedChunks := [];
          rerankedChunks := None |},
     server).
Proof.
  intros Hembed Hsearch Hlow.
  unfold query, tryCatch, queryBody, bind, generateEmbedding, tryCatch,
    client_embeddings, lift.
  rewrite Hembed, Hsearch.
  rewrite filter_none.
  - reflexivity.
  - intros result Hin. apply geb_false. apply Hlow. exact Hin.
Qed.

End QueryFacts.

(** Witness of C1: the best match scores 0.3 against a threshold of 0.5. *)
Lemma query_without_evidence_short_circuits_witness :
  RAGPipeline.query (runtime := Fixtures.tableRuntime)
    (formatting := Fixtures.plainFormatting) Fixtures.ragConfig
    Fixtures.indexedStore "What are the requirements?" None None
    Fixtures.pointerlessServer
  = (Js.Returns
       {| RAGPipeline.response := RAGPipeline.noEvidenceResponse;
          RAGPipeline.retrievedChunks := [];
          RAGPipeline.rerankedChunks := None |},
     Fixtures.pointerlessServer).
Proof.
  apply (query_without_evidence_short_circuits
           (runtime := Fixtures.tableRuntime)
           (formatting := Fixtures.plainFormatting) Fixtures.ragConfig
           Fixtures.indexedStore "What are the requirements?" None None
           Fixtures.pointerlessServer [1%R; 0%R] [Fixtures.lowScoreResult]).
  - reflexivity.
  - reflexivity.
  - intros result [Heq | []]. subst result. simpl. lra.
Defined.


(* ===================================================================== *)
(** * Similarity search                                                    *)
(* ===================================================================== *)

Section SearchFacts.

Import DocumentProcessor VectorStore.

Local Open Scope R_scope.

(** ** Totality of the scan *)

Lemma cosineSimilarity_mismatch (a b : list R) :
  List.length a <> List.length b ->
  cosineSimilarity a b = Throws "Vectors must have the same length".
Proof.
  intros Hne. unfold cosineSimilarity.
  destruct (Nat.eqb (List.length a) (List.length b)) eqn:Heq.
  - apply Nat.eqb_eq in Heq. contradiction.
  - reflexivity.
Qed.

Lemma cosineSimilarity_returns (a b : list R) :
  List.length a = List.length b ->
  exists similarity, cosineSimilarity a b = Returns similarity.
Proof.
  intros Heq. unfold cosineSimilarity.
  rewrite (proj2 (Nat.eqb_eq _ _) Heq). simpl.
  destruct (fold_left accumulate (combine a b) (0, 0, 0)) as [[d na] nb].
  destruct (isZero na || isZero nb)%bool; eexists; reflexivity.
Qed.

Lemma decodeEmbedding_length (blob : list byte) :
  List.length (decodeEmbedding blob) = List.length blob.
Proof. apply length_map. Qed.

Lemma embeddingBlob_length (binary32 : R -> byte * byte * byte * byte)
    (embedding : list R) :
  List.length (embeddingBlob binary32 embedding)
  = (4 * List.length embedding)%nat.
Proof.
  induction embedding as [| x embedding IH]; [reflexivity |].
  unfold embeddingBlob in *. simpl flat_map.
  destruct (binary32 x) as [[[b0 b1] b2] b3].
  rewrite length_app, IH. simpl. lia.
Qed.

Lemma scanRows_returns (queryEmbedding : list R) (rows : list Row) :
  (forall row blob,
     In row rows -> row_embedding row = Some blob ->
     List.length blob = List.length queryEmbedding) ->
  forall results,
    exists results', scanRows queryEmbedding rows results = Returns results'.
Proof.
  induction rows as [| row rows IH]; intros Hdim results; simpl.
  - eexists. reflexivity.
  - assert (Hrest : forall r e, In r rows -> row_embedding r = Some e ->
                      List.length e = List.length queryEmbedding).
    { intros r e Hin. apply Hdim. right. exact Hin. }
    destruct (row_embedding row) as [blob |] eqn:Hemb.
    + destruct (cosineSimilarity_returns queryEmbedding (decodeEmbedding blob))
        as [x Hx].
      { rewrite decodeEmbedding_length. symmetry.
        apply (Hdim row blob); [left; reflexivity | exact Hemb]. }
      rewrite Hx. apply IH. exact Hrest.
    + apply IH. exact Hrest.
Qed.

Lemma scanRows_throws (queryEmbedding : list R) (rows : list Row) :
  (exists row blob,
     In row rows /\ row_embedding row = Some blob
     /\ List.length blob <> List.length queryEmbedding) ->
  forall results,
    scanRows queryEmbedding rows results
    = Throws "Vectors must have the same length".
Proof.
  induction rows as [| row rows IH]; intros [bad [blob [Hin [Hemb Hne]]]] results.
  - destruct Hin.
  - simpl.
    destruct (row_embedding row) as [blob0 |] eqn:Hemb0.
    + destruct (Nat.eq_dec (List.length queryEmbedding) (List.length blob0))
        as [Heq | Hdiff].
      * destruct (cosineSimilarity_returns queryEmbedding (decodeEmbedding blob0))
          as [x Hx].
        { rewrite decodeEmbedding_length. exact Heq. }
        rewrite Hx. apply IH. exists bad, blob.
        destruct Hin as [-> | Hin].
        -- rewrite Hemb0 in Hemb. injection Hemb as ->. exfalso. auto.
        -- auto.
      * rewrite cosineSimilarity_mismatch; [reflexivity |].
        rewrite decodeEmbedding_length. exact Hdiff.
    + apply IH. exists bad, blob.
      destruct Hin as [-> | Hin]; [congruence | auto].
Qed.

(** [cosineSimilarity] throws whenever its two vectors differ in length;
    when every BLOB of the table has as many bytes as the query embedding
    has components, the scan returns. *)
Lemma cosine_scan_total_on_equal_lengths :
  (forall a b : list R,
     List.length a <> List.length b ->
     cosineSimilarity a b = Throws "Vectors must have the same length")
  /\ (forall (db : Database) (queryEmbedding : list R) (topK : Z)
        (documentIds : option (list string)),
        (forall row blob,
           In row (document_embeddings db) ->
           row_embedding row = Some blob ->
           List.length blob = List.length queryEmbedding) ->
        exists results,
          cosineSimilaritySearch db queryEmbedding topK documentIds
          = Returns results).
Proof.
  split.
  - exact cosineSimilarity_mismatch.
  - intros db q topK documentIds Hdim. unfold cosineSimilaritySearch.
    destruct (scanRows_returns q
                (filter
                   (fun row =>
                      (match row_embedding row with Some _ => true | None => false end
                       && inFilter documentIds row)%bool)
                   (document_embeddings db))) with (results := @nil VectorSearchResult)
      as [results Hscan].
    + intros row embedding Hin. apply filter_In in Hin. destruct Hin as [Hin _].
      apply Hdim. exact Hin.
    + rewrite Hscan. eexists. reflexivity.
Qed.

(** C9 (the failing inputs). A stored embedding and a query embedding of
    the same non-zero dimension never reach [cosineSimilarity] with equal
    lengths: the BLOB that [addChunks] writes holds four bytes per
    component and the scan reads each byte back as one component, so the
    scan of a table holding such a row in scope throws 'Vectors must have
    the same length'. *)
Theorem equal_dimensions_still_throw
    (binary32 : R -> byte * byte * byte * byte) (db : Database)
    (queryEmbedding : list R) (topK : Z) (documentIds : option (list string))
    (row : Row) (embedding : list R) :
  In row (document_embeddings db) ->
  inFilter documentIds row = true ->
  row_embedding row = Some (embeddingBlob binary32 embedding) ->
  List.length embedding = List.length queryEmbedding ->
  queryEmbedding <> [] ->
  cosineSimilaritySearch db queryEmbedding topK documentIds
  = Throws "Vectors must have the same length".
Proof.
  intros Hin Hscope Hblob Hdim Hnonempty. unfold cosineSimilaritySearch.
  rewrite scanRows_throws; [reflexivity |].
  exists row, (embeddingBlob binary32 embedding). split; [| split].
  - apply filter_In. split; [exact Hin |]. rewrite Hblob, Hscope. reflexivity.
  - exact Hblob.
  - rewrite embeddingBlob_length, Hdim.
    destruct queryEmbedding; [contradiction | simpl; lia].
Qed.

(** ** The scale of the scores *)

Lemma fold_accumulate (l : list (R * R)) :
  forall d na nb,
    fold_left accumulate l (d, na, nb)
    = (d + dotOf l, na + squaresOfFst l, nb + squaresOfSnd l).
Proof.
  induction l as [| [x y] l IH]; intros d na nb; simpl.
  - f_equal; [f_equal |]; lra.
  - rewrite IH. f_equal; [f_equal |]; lra.
Qed.







Lemma insertByScore_In (x y : VectorSearchResult) (l : list VectorSearchResult) :
  In y (insertByScore x l) -> y = x \/ In y l.
Proof.
  induction l as [| z l IH]; simpl.
  - intros [H | []]. left. symmetry. exact H.
  - destruct (geb (score x) (score z)); simpl.
    + intros [H | [H | H]]; [left; symmetry; exact H | right; left; exact H
                            | right; right; exact H].
    + intros [H | H]; [right; left; exact H |].
      destruct (IH H) as [H' | H']; [left; exact H' | right; right; exact H'].
Qed.

Lemma sortByScore_In (y : VectorSearchResult) (l : list VectorSearchResult) :
  In y (sortByScore l) -> In y l.
Proof.
  induction l as [| x l IH]; simpl; [tauto |].
  intros H. apply insertByScore_In in H.
  destruct H as [H | H]; [left; symmetry; exact H | right; apply IH; exact H].
Qed.

Lemma slice_to_In {A : Type} (k : Z) (y : A) (l : list A) :
  In y (slice_to k l) -> In y l.
Proof.
  unfold slice_to. intros H.
  rewrite <- (firstn_skipn
                (Z.to_nat
                   (if (k <? 0)%Z
                    then Z.max (Z.of_nat (List.length l) + k) 0
                    else Z.min k (Z.of_nat (List.length l)))) l).
  apply in_or_app. left. exact H.
Qed.




Lemma cosineSimilarity_opposite :
  cosineSimilarity [0; 0; 0; -1] [0; 0; 0; 64] = Returns (-1).
Proof.
  unfold cosineSimilarity. simpl negb. cbv iota.
  rewrite fold_accumulate. unfold combine, dotOf, squaresOfFst, squaresOfSnd,
    fold_right, fst, snd, isZero.
  destruct (Req_dec_T (0 + (0 * 0 + (0 * 0 + (0 * 0 + (-1 * -1 + 0))))) 0)
    as [H | _]; [exfalso; lra |].
  destruct (Req_dec_T (0 + (0 * 0 + (0 * 0 + (0 * 0 + (64 * 64 + 0))))) 0)
    as [H | _]; [exfalso; lra |].
  simpl orb. cbv iota. f_equal.
  replace (0 + (0 * 0 + (0 * 0 + (0 * 0 + (-1 * -1 + 0))))) with 1 by lra.
  replace (0 + (0 * 0 + (0 * 0 + (0 * 0 + (64 * 64 + 0))))) with (64 * 64) by lra.
  rewrite sqrt_1, sqrt_square by lra. field.
Qed.

Lemma policyRow_decoded :
  decodeEmbedding [x00; x00; x00; x40] = [0; 0; 0; 64].
Proof. reflexivity. Qed.



End SearchFacts.



(** Witness of C9: the store holds the one-dimensional embedding [[2]] as
    the four bytes 00 00 00 40; the scan for the one-dimensional query
    [[1]] throws. *)
Lemma equal_dimensions_still_throw_witness :
  VectorStore.cosineSimilaritySearch Fixtures.scannedStore [1%R] 10 None
  = Js.Throws "Vectors must have the same length".
Proof.
  apply (equal_dimensions_still_throw (fun _ => (x00, x00, x00, x40))
           Fixtures.scannedStore [1%R] 10 None Fixtures.policyRow [2%R]).
  - left. reflexivity.
  - reflexivity.
  - reflexivity.
  - reflexivity.
  - discriminate.
Defined.


(* ===================================================================== *)
(** * Evidence reconciliation                                              *)
(* ===================================================================== *)

Section ReconciliationFacts.

Import VectorStore OllamaClient RAGPipeline.

Variable contextChunks : list VectorSearchResult.

(** The fields that reconciliation never touches. *)
Lemma enhancePointer_source (e : EvidencePointer) :
  sourcePathOrUrl (enhancePointer contextChunks e) = sourcePathOrUrl e.
Proof.
  unfold enhancePointer.
  destruct (matchingChunk contextChunks e) as [m |]; [| reflexivity].
  repeat match goal with
         | |- context [if ?b then _ else _] => destruct b
         end; reflexivity.
Qed.

Lemma enhanceEvidencePointers_frame (r : EvidenceTracedResponse) :
  let r' := enhanceEvidencePointers r contextChunks in
  summary r' = summary r
  /\ overallConfidence r' = overallConfidence r
  /\ evidenceGaps r' = evidenceGaps r
  /\ map text (claims r') = map text (claims r)
  /\ map guidelineIds (claims r') = map guidelineIds (claims r)
  /\ map attributeIds (claims r') = map attributeIds (claims r)
  /\ map confidence (claims r') = map confidence (claims r)
  /\ map (fun c => map sourcePathOrUrl (evidencePointers c)) (claims r')
     = map (fun c => map sourcePathOrUrl (evidencePointers c)) (claims r).
Proof.
  simpl. repeat split; rewrite map_map; try reflexivity.
  apply map_ext. intros c. simpl. rewrite map_map. apply map_ext.
  apply enhancePointer_source.
Qed.

(** A truthy page, first line or snippet is kept as it is. *)
Lemma enhancePointer_keeps_truthy (e : EvidencePointer) :
  let e' := enhancePointer contextChunks e in
  (truthyQ (page e) = true -> page e' = page e)
  /\ (truthyQ (lineStart e) = true ->
      lineStart e' = lineStart e /\ lineEnd e' = lineEnd e)
  /\ (truthyString (snippet e) = true -> snippet e' = snippet e).
Proof.
  simpl. unfold enhancePointer.
  destruct (matchingChunk contextChunks e) as [m |]; [| tauto].
  destruct (truthyQ (page e)) eqn:Hp;
    destruct (truthyQ (lineStart e)) eqn:Hl;
    destruct (truthyString (snippet e)) eqn:Hs;
    destruct (truthyZ (DocumentProcessor.page (DocumentProcessor.metadata (chunk m))));
    destruct (truthyZ (DocumentProcessor.lineStart (DocumentProcessor.metadata (chunk m))));
    destruct (nonempty (DocumentProcessor.content (chunk m)));
    do 3 (simpl; rewrite ?Hp, ?Hl, ?Hs);
    repeat split; intros; try discriminate; reflexivity.
Qed.

End ReconciliationFacts.

(** C7 (evaluation at the failing input). A pointer that carries
    [lineEnd = 25] and no [lineStart], reconciled against the chunk of the
    same source that covers lines 10 to 12, comes back with [lineStart = 10]
    and with its [lineEnd] overwritten by 12. *)
Theorem present_lineEnd_overwritten :
  OllamaClient.lineEnd Fixtures.partialPointer = Some (25 # 1)
  /\ map OllamaClient.evidencePointers
       (OllamaClient.claims
          (RAGPipeline.enhanceEvidencePointers Fixtures.citedResponse
             [Fixtures.policyResult]))
     = [[{| OllamaClient.sourcePathOrUrl := "docs/evms-policy.txt";
            OllamaClient.page := None;
            OllamaClient.lineStart := Some (10 # 1);
            OllamaClient.lineEnd := Some (12 # 1);
            OllamaClient.snippet := Some "Control accounts are defined..."%string |}]].
Proof. split; reflexivity. Qed.


(* ===================================================================== *)
(** * Sentences                                                            *)
(* ===================================================================== *)

Section SentenceFacts.

Import DocumentProcessor.

Lemma split_runs_nonempty (delim : ascii -> bool) (s : string) :
  split_runs delim s <> [].
Proof.
  induction s as [| c s IH]; simpl; [discriminate |].
  destruct (delim c).
  - destruct (starts_with delim s); [exact IH | discriminate].
  - destruct (split_runs delim s); discriminate.
Qed.

(** No piece of a split holds a delimiter. *)
Lemma split_runs_pieces (delim : ascii -> bool) (s : string) :
  Forall
    (fun p => forallb (fun c => negb (delim c)) (list_ascii_of_string p) = true)
    (split_runs delim s).
Proof.
  induction s as [| c s IH]; simpl.
  - repeat constructor.
  - destruct (delim c) eqn:Hc.
    + destruct (starts_with delim s); [exact IH |].
      constructor; [reflexivity | exact IH].
    + destruct (split_runs delim s) as [| p ps].
      * constructor; [simpl; rewrite Hc; reflexivity | constructor].
      * inversion IH as [| ? ? Hp Hps]; subst.
        constructor; [simpl; rewrite Hc; exact Hp | exact Hps].
Qed.

Lemma trimStart_keeps (P : ascii -> bool) (s : string) :
  forallb P (list_ascii_of_string s) = true ->
  forallb P (list_ascii_of_string (trimStart s)) = true.
Proof.
  induction s as [| c s IH]; simpl; [trivial |].
  intros H. apply andb_prop in H. destruct H as [Hc Hs].
  destruct (is_whitespace c); [apply IH; exact Hs |].
  simpl. rewrite Hc. exact Hs.
Qed.

Lemma trimEnd_keeps (P : ascii -> bool) (s : string) :
  forallb P (list_ascii_of_string s) = true ->
  forallb P (list_ascii_of_string (trimEnd s)) = true.
Proof.
  induction s as [| c s IH]; simpl; [trivial |].
  intros H. apply andb_prop in H. destruct H as [Hc Hs].
  destruct (is_whitespace c && negb (nonempty (trimEnd s)))%bool; [reflexivity |].
  simpl. rewrite Hc. apply IH. exact Hs.
Qed.

Lemma trimEnd_idempotent (s : string) : trimEnd (trimEnd s) = trimEnd s.
Proof.
  induction s as [| c s IH]; simpl; [reflexivity |].
  destruct (is_whitespace c && negb (nonempty (trimEnd s)))%bool eqn:Hc;
    [reflexivity |].
  simpl. rewrite IH, Hc. reflexivity.
Qed.

Lemma trimStart_unspaced (s : string) :
  starts_with is_whitespace (trimStart s) = false.
Proof.
  induction s as [| c s IH]; simpl; [reflexivity |].
  destruct (is_whitespace c) eqn:Hc; [exact IH | simpl; exact Hc].
Qed.

Lemma trimStart_fixed (s : string) :
  starts_with is_whitespace s = false -> trimStart s = s.
Proof. destruct s as [| c s]; simpl; [trivial | intros ->; reflexivity]. Qed.

Lemma trimEnd_start (s : string) :
  starts_with is_whitespace s = false ->
  starts_with is_whitespace (trimEnd s) = false.
Proof.
  destruct s as [| c s]; simpl; [trivial |]. intros Hc.
  rewrite Hc. simpl. exact Hc.
Qed.

Lemma trim_idempotent (s : string) : trim (trim s) = trim s.
Proof.
  unfold trim.
  rewrite (trimStart_fixed (trimEnd (trimStart s))).
  - apply trimEnd_idempotent.
  - apply trimEnd_start. apply trimStart_unspaced.
Qed.

(** X1. Every sentence that [splitIntoSentences] returns is non-empty,
    holds none of the characters '.', '!' and '?', and has no white space
    at either end (trimming it again changes nothing). *)
Theorem sentences_are_clean (text : string) :
  Forall
    (fun s =>
       nonempty s = true
       /\ forallb (fun c => negb (is_terminal c)) (list_ascii_of_string s) = true
       /\ trim s = s)
    (splitIntoSentences text).
Proof.
  apply Forall_forall. intros s Hs. unfold splitIntoSentences in Hs.
  apply filter_In in Hs. destruct Hs as [Hin Hne].
  apply in_map_iff in Hin. destruct Hin as [p [<- Hp]].
  split; [exact Hne | split].
  - unfold trim. apply trimEnd_keeps, trimStart_keeps.
    pose proof (split_runs_pieces is_terminal text) as Hall.
    rewrite Forall_forall in Hall. apply Hall. exact Hp.
  - apply trim_idempotent.
Qed.

End SentenceFacts.


(* ===================================================================== *)
(** * The chunk records                                                    *)
(* ===================================================================== *)

Section ChunkRecordFacts.

Import DocumentProcessor.

Variable config : ChunkingConfig.
Variable randomUUID : nat -> string.
Variable base : BaseMetadata.

Lemma estimateLines_nonneg (s : string) : 0 <= estimateLines s.
Proof.
  unfold estimateLines, len. apply Z.div_pos; lia.
Qed.

Lemma step_counted (st : LoopState) (sentence : string) :
  counted randomUUID base st -> counted randomUUID base (step config randomUUID base st sentence).
Proof.
  intros [Hindex [Hlines [Hend Hrec]]]. unfold step.
  pose proof (estimateLines_nonneg sentence) as Hs.
  destruct (emits config st sentence); unfold counted; simpl.
  - pose proof (estimateLines_nonneg (getOverlapText config (currentChunk st)))
      as Ho.
    split; [rewrite length_app; simpl; lia | split; [lia | split; [lia |]]].
    intros i c Hi. apply nth_error_snoc in Hi.
    destruct Hi as [Hi | [-> ->]]; [apply Hrec; exact Hi |].
    unfold recorded, createChunk. simpl.
    repeat split; try reflexivity; try exact Hindex.
    exists (currentLineStart st), (currentLineEnd st). repeat split; lia.
  - split; [exact Hindex | split; [lia | split; [lia | exact Hrec]]].
Qed.

Lemma runLoop_counted (sentences : list string) :
  forall st,
    counted randomUUID base st ->
    counted randomUUID base (runLoop config randomUUID base sentences st).
Proof.
  induction sentences as [| s sentences IH]; intros st Hst; [exact Hst |].
  simpl. apply IH. apply step_counted. exact Hst.
Qed.

Lemma chunkText_recorded (text : string) (i : nat) (c : DocumentChunk) :
  nth_error (chunkText config randomUUID text base) i = Some c ->
  recorded randomUUID base i c.
Proof.
  unfold chunkText. intros Hi.
  rewrite nth_error_map in Hi.
  destruct (nth_error
              (withFinalChunk config randomUUID base
                 (runLoop config randomUUID base (splitIntoSentences text)
                    initialState)) i) as [c0 |] eqn:H0; [| discriminate].
  injection Hi as <-.
  assert (Hrec : recorded randomUUID base i c0).
  { pose proof (runLoop_counted (splitIntoSentences text) initialState) as Hc.
    destruct Hc as [Hindex [Hlines [Hend Hrec]]].
    { split; [reflexivity | split; [simpl; lia | split; [simpl; lia |]]].
      intros k x Hk. destruct k; discriminate. }
    unfold withFinalChunk in H0.
    destruct (keepsFinal config _); [| apply Hrec; exact H0].
    apply nth_error_snoc in H0.
    destruct H0 as [H0 | [-> ->]]; [apply Hrec; exact H0 |].
    unfold recorded, createChunk. simpl.
    repeat split; try reflexivity; try exact Hindex.
    eexists _, _. repeat split; [exact Hlines | exact Hend]. }
  exact Hrec.
Qed.

(** X2. The chunk at position [i] of the list returned by [chunkText] has
    [chunkIndex = i] and the [i]-th identifier drawn, carries the document
    id, source and file hash of the base metadata, records the length of
    its content as [metadata.chunkSize], has no embedding yet, and its line
    hints satisfy [lineStart <= lineEnd] and [1 <= lineEnd]. *)
Theorem chunks_are_numbered (text : string) (i : nat) (c : DocumentChunk) :
  nth_error (chunkText config randomUUID text base) i = Some c ->
  recorded randomUUID base i c.
Proof.
  exact (chunkText_recorded text i c).
Qed.

(** X3. A text without a sentence (empty, or made of punctuation and white
    space only) yields no chunk when [minChunkSize] is positive, and a
    single chunk with empty content otherwise. *)
Theorem text_without_sentences (text : string) :
  splitIntoSentences text = [] ->
  map content (chunkText config randomUUID text base)
  = if minChunkSize config <=? 0 then [""%string] else [].
Proof.
  intros Hnone. rewrite chunkText_contents, Hnone.
  unfold withFinalChunk, keepsFinal. simpl.
  change (len "") with 0.
  destruct (minChunkSize config <=? 0); reflexivity.
Qed.

(** ** The overlap text *)



End ChunkRecordFacts.

Section ProcessingFacts.

Import DocumentProcessor.


End ProcessingFacts.


(* ===================================================================== *)
(** * Attempts and their outcomes                                          *)
(* ===================================================================== *)

Section AttemptFacts.

Import OllamaClient.

Context {runtime : Runtime}.
Variable config : OllamaConfig.

(** An attempt consumes exactly one outcome of the script. *)
Lemma attemptOnce_consumes (s : Server) :
  exists o, attemptOnce config s = (o, consumed (generationModel config) s).
Proof.
  unfold attemptOnce, bind, client_generate.
  destruct (script s) as [| [e | response] rest]; try (eexists; reflexivity).
  destruct (JSON_parse response) as [parsed |]; [| eexists; reflexivity].
  destruct (EvidenceTracedResponseSchema parsed); eexists; reflexivity.
Qed.

Lemma consumed_calls (m : string) (s : Server) (k : nat) :
  generateCalls (Nat.iter k (consumed m) s) = generateCalls s ++ repeat m k
  /\ script (Nat.iter k (consumed m) s) = skipn k (script s).
Proof.
  induction k as [| k [IHc IHs]]; simpl.
  - rewrite app_nil_r. split; reflexivity.
  - rewrite IHc, IHs. split.
    + rewrite <- app_assoc. f_equal. symmetry. apply repeat_cons.
    + clear. revert k. generalize (script s). intros l k. revert l.
      induction k as [| k IH]; intros l; [destruct l; reflexivity |].
      destruct l as [| a l]; [reflexivity |]. simpl. apply IH.
Qed.

(** The loop with at least one iteration to run returns, after between one
    and all of its iterations. *)
Lemma attempts_return (n : nat) :
  forall (attempt retries : Z) (s : Server),
    attempt + Z.of_nat (S n) = retries ->
    exists v k,
      (1 <= k <= S n)%nat
      /\ attempts config (S n) attempt retries s
         = (Returns v, Nat.iter k (consumed (generationModel config)) s).
Proof.
  induction n as [| n IH]; intros attempt retries s Hsum.
  - destruct (attemptOnce_consumes s) as [[v | e] Ho].
    + exists v, 1%nat. split; [lia |]. simpl. unfold tryCatch. rewrite Ho.
      reflexivity.
    + exists noClaimResponse, 1%nat. split; [lia |]. simpl. unfold tryCatch.
      rewrite Ho.
      replace (attempt =? retries - 1) with true by (symmetry; apply Z.eqb_eq; lia).
      reflexivity.
  - destruct (attemptOnce_consumes s) as [[v | e] Ho].
    + exists v, 1%nat. split; [lia |].
      change (attempts config (S (S n)) attempt retries s)
        with (tryCatch (attemptOnce config)
                (fun _ => if attempt =? retries - 1 then ret noClaimResponse
                          else attempts config (S n) (attempt + 1) retries) s).
      unfold tryCatch. rewrite Ho. reflexivity.
    + destruct (IH (attempt + 1) retries (consumed (generationModel config) s))
        as [v [k [Hk Hrun]]]; [lia |].
      exists v, (S k). split; [lia |].
      change (attempts config (S (S n)) attempt retries s)
        with (tryCatch (attemptOnce config)
                (fun _ => if attempt =? retries - 1 then ret noClaimResponse
                          else attempts config (S n) (attempt + 1) retries) s).
      unfold tryCatch at 1. rewrite Ho.
      replace (attempt =? retries - 1) with false by (symmetry; apply Z.eqb_neq; lia).
      rewrite Hrun. f_equal. simpl. rewrite Nat.iter_swap. reflexivity.
Qed.

(** X6. With a budget of at least one attempt the call never throws: it
    returns a response after [k] generate calls, for some [k] between 1 and
    the budget, each made with the generation model and each consuming one
    outcome of the server. *)
Theorem generation_returns_within_budget (question context : string)
    (retries : Z) (server : Server) :
  1 <= retries ->
  exists response server' k,
    generateEvidenceTracedResponse config question context retries server
    = (Returns response, server')
    /\ 1 <= Z.of_nat k <= retries
    /\ generateCalls server'
       = generateCalls server ++ repeat (generationModel config) k
    /\ script server' = skipn k (script server).
Proof.
  intros Hpos. unfold generateEvidenceTracedResponse.
  destruct (Z.to_nat retries) as [| n] eqn:Hn; [lia |].
  destruct (attempts_return n 0 retries server) as [v [k [Hk Hrun]]]; [lia |].
  destruct (consumed_calls (generationModel config) server k) as [Hc Hs].
  exists v, (Nat.iter k (consumed (generationModel config)) server), k.
  split; [exact Hrun | split; [lia | split; [exact Hc | exact Hs]]].
Qed.

(** ** What the schema guarantees *)

Lemma traverse_Forall2 {A B : Type} (f : A -> option B) (l : list A) :
  forall bs, traverse f l = Some bs -> Forall2 (fun a b => f a = Some b) l bs.
Proof.
  induction l as [| a l IH]; simpl; intros bs H.
  - injection H as <-. constructor.
  - destruct (f a) as [b |] eqn:Hb; simpl in H; [| discriminate].
    destruct (traverse f l) as [bs' |]; simpl in H; [| discriminate].
    injection H as <-. constructor; [exact Hb | apply IH; reflexivity].
Qed.

Lemma z_number_min_max_range (lo hi : Q) (j : json) (q : Q) :
  z_number_min_max lo hi j = Some q -> (lo <= q <= hi)%Q.
Proof.
  unfold z_number_min_max, bindOpt.
  destruct (z_number j) as [x |]; [| discriminate].
  destruct (Qle_bool lo x && Qle_bool x hi)%bool eqn:Hb; [| discriminate].
  intros H. injection H as <-. apply andb_prop in Hb. destruct Hb as [H1 H2].
  split; apply Qle_bool_iff; assumption.
Qed.

Ltac schema_cases H :=
  repeat match type of H with
         | context [bindOpt ?o _] =>
             let E := fresh "E" in
             destruct o eqn:E; simpl in H; [| discriminate H]
         end.

Lemma ClaimSchema_range (j : json) (c : Claim) :
  ClaimSchema j = Some c -> (0 <= confidence c <= 1)%Q.
Proof.
  unfold ClaimSchema. destruct j; try discriminate. intros H.
  schema_cases H. injection H as <-. simpl.
  unfold required, bindOpt in E3.
  destruct (member "confidence" members); [| discriminate].
  apply (z_number_min_max_range _ _ _ _ E3).
Qed.

Lemma schema_range (j : json) (v : EvidenceTracedResponse) :
  EvidenceTracedResponseSchema j = Some v ->
  (0 <= overallConfidence v <= 1)%Q
  /\ Forall (fun c => (0 <= confidence c <= 1)%Q) (claims v).
Proof.
  unfold EvidenceTracedResponseSchema. destruct j; try discriminate. intros H.
  schema_cases H. injection H as <-. simpl. split.
  - unfold required, bindOpt in E1.
    destruct (member "overallConfidence" members); [| discriminate].
    apply (z_number_min_max_range _ _ _ _ E1).
  - unfold required, bindOpt in E.
    destruct (member "claims" members) as [cs |]; [| discriminate].
    unfold z_array in E. destruct cs; try discriminate.
    apply traverse_Forall2 in E.
    induction E as [| a b la lb Hab _ IH]; constructor.
    + apply (ClaimSchema_range a). exact Hab.
    + exact IH.
Qed.

(** X7. Whatever [generateEvidenceTracedResponse] returns, validated or
    degraded, has its overall confidence and the confidence of every claim
    between 0 and 1. *)
Theorem returned_confidences_in_range (question context : string)
    (retries : Z) (server server' : Server) (response : EvidenceTracedResponse) :
  generateEvidenceTracedResponse config question context retries server
  = (Returns response, server') ->
  (0 <= overallConfidence response <= 1)%Q
  /\ Forall (fun c => (0 <= confidence c <= 1)%Q) (claims response).
Proof.
  unfold generateEvidenceTracedResponse. intros Hrun.
  apply attempts_return_validated in Hrun.
  destruct Hrun as [-> | [reply [_ Hacc]]].
  - split; [split; discriminate | constructor].
  - destruct reply as [e | text]; simpl in Hacc; [discriminate |].
    destruct (JSON_parse text) as [parsed |]; [| discriminate].
    apply (schema_range parsed). exact Hacc.
Qed.

Lemma attempts_first_valid (k : nat) :
  forall (n : nat) (attempt retries : Z) (server : Server) (reply : Reply)
         (v : EvidenceTracedResponse),
    (k < n)%nat ->
    attempt + Z.of_nat n = retries ->
    Forall (fun r => accepted r = None) (firstn k (script server)) ->
    nth_error (script server) k = Some reply ->
    accepted reply = Some v ->
    exists server',
      attempts config n attempt retries server = (Returns v, server')
      /\ generateCalls server'
         = generateCalls server ++ repeat (generationModel config) (S k)
      /\ script server' = skipn (S k) (script server).
Proof.
  induction k as [| k IH];
    intros n attempt retries server reply v Hlt Hsum Hfail Hnth Hacc.
  - destruct n as [| n]; [lia |].
    destruct (script server) as [| r rest] eqn:Hs; [discriminate |].
    simpl in Hnth. injection Hnth as ->.
    exists (consumed (generationModel config) server).
    split; [| split].
    + simpl. unfold tryCatch.
      rewrite (attemptOnce_accepts config server reply rest v Hs Hacc).
      reflexivity.
    + reflexivity.
    + simpl. rewrite Hs. reflexivity.
  - destruct n as [| [| n]]; try lia.
    destruct (script server) as [| r rest] eqn:Hs; [discriminate |].
    simpl in Hnth. simpl in Hfail.
    pose proof (Forall_inv Hfail) as Hr.
    pose proof (Forall_inv_tail Hfail) as Hrest.
    destruct (attemptOnce_rejects config server) as [e He].
    { rewrite Hs. simpl. constructor; [exact Hr | constructor]. }
    destruct (IH (S n) (attempt + 1) retries
                (consumed (generationModel config) server) reply v)
      as [s' [Hrun [Hcalls Hscript]]]; try lia.
    + simpl. rewrite Hs. exact Hrest.
    + simpl. rewrite Hs. exact Hnth.
    + exact Hacc.
    + exists s'. split; [| split].
      * change (attempts config (S (S n)) attempt retries server)
          with (tryCatch (attemptOnce config)
                  (fun _ => if attempt =? retries - 1 then ret noClaimResponse
                            else attempts config (S n) (attempt + 1) retries)
                  server).
        unfold tryCatch at 1. rewrite He.
        replace (attempt =? retries - 1) with false
          by (symmetry; apply Z.eqb_neq; lia).
        exact Hrun.
      * rewrite Hcalls. simpl. rewrite <- app_assoc. reflexivity.
      * rewrite Hscript. simpl. rewrite Hs. reflexivity.
Qed.

(** X8. When the first [k] outcomes fail, [k] being smaller than the
    budget, and the next reply passes the schema, that validated reply is
    returned after exactly [k + 1] generate calls. *)
Theorem first_valid_reply_wins (question context : string) (retries : Z)
    (server : Server) (k : nat) (reply : Reply) (v : EvidenceTracedResponse) :
  Z.of_nat k < retries ->
  Forall (fun r => accepted r = None) (firstn k (script server)) ->
  nth_error (script server) k = Some reply ->
  accepted reply = Some v ->
  exists server',
    generateEvidenceTracedResponse config question context retries server
    = (Returns v, server')
    /\ generateCalls server'
       = generateCalls server ++ repeat (generationModel config) (S k)
    /\ script server' = skipn (S k) (script server).
Proof.
  intros Hk Hfail Hnth Hacc. unfold generateEvidenceTracedResponse.
  apply (attempts_first_valid k (Z.to_nat retries) 0 retries server reply v);
    try assumption; lia.
Qed.

End AttemptFacts.


(* ===================================================================== *)
(** * Sorting by score                                                     *)
(* ===================================================================== *)

Section SortingFacts.

Import OllamaClient.

Context {A : Type}.
Variable key : A -> R.

Lemma insertDocument_In (x y : A) (l : list A) :
  In y (insertDocument key x l) <-> y = x \/ In y l.
Proof.
  induction l as [| z l IH]; simpl.
  - split; [intros [H | []]; left; symmetry; exact H
           | intros [H | []]; left; symmetry; exact H].
  - destruct (VectorStore.geb (key x) (key z)); simpl.
    + split; [intros [H | H]; [left; symmetry; exact H | right; exact H]
             | intros [H | H]; [left; symmetry; exact H | right; exact H]].
    + rewrite IH. tauto.
Qed.

Lemma sortDescending_In (y : A) (l : list A) :
  In y (sortDescending key l) <-> In y l.
Proof.
  induction l as [| x l IH]; simpl; [tauto |].
  rewrite insertDocument_In, IH. split; intros [H | H]; auto.
Qed.

Lemma insertDocument_length (x : A) (l : list A) :
  List.length (insertDocument key x l) = S (List.length l).
Proof.
  induction l as [| z l IH]; simpl; [reflexivity |].
  destruct (VectorStore.geb (key x) (key z)); simpl; [reflexivity |].
  rewrite IH. reflexivity.
Qed.

Lemma sortDescending_length (l : list A) :
  List.length (sortDescending key l) = List.length l.
Proof.
  induction l as [| x l IH]; simpl; [reflexivity |].
  rewrite insertDocument_length, IH. reflexivity.
Qed.

Lemma insertDocument_descending (x : A) (l : list A) :
  VectorStore.descending key l ->
  VectorStore.descending key (insertDocument key x l).
Proof.
  unfold VectorStore.descending.
  induction l as [| z l IH]; intros Hl; simpl.
  - constructor; constructor.
  - apply StronglySorted_inv in Hl. destruct Hl as [Hl Hz].
    unfold VectorStore.geb.
    destruct (Rle_dec (key z) (key x)) as [Hle | Hgt].
    + constructor; [constructor; assumption |].
      constructor; [exact Hle |].
      eapply Forall_impl; [| exact Hz]. simpl. intros a Ha. lra.
    + constructor; [apply IH; exact Hl |].
      apply Forall_forall. intros a Ha. apply insertDocument_In in Ha.
      destruct Ha as [-> | Ha]; [lra |].
      rewrite Forall_forall in Hz. apply Hz. exact Ha.
Qed.

Lemma sortDescending_descending (l : list A) :
  VectorStore.descending key (sortDescending key l).
Proof.
  induction l as [| x l IH]; simpl; [constructor |].
  apply insertDocument_descending. exact IH.
Qed.

Lemma firstn_descending (n : nat) (l : list A) :
  VectorStore.descending key l -> VectorStore.descending key (firstn n l).
Proof.
  unfold VectorStore.descending. revert n.
  induction l as [| x l IH]; intros n Hl; [rewrite firstn_nil; constructor |].
  destruct n as [| n]; [constructor |].
  apply StronglySorted_inv in Hl. destruct Hl as [Hl Hx]. simpl.
  constructor; [apply IH; exact Hl |].
  apply Forall_forall. intros a Ha. rewrite Forall_forall in Hx. apply Hx.
  rewrite <- (firstn_skipn n l). apply in_or_app. left. exact Ha.
Qed.

Lemma slice_to_descending (k : Z) (l : list A) :
  VectorStore.descending key l -> VectorStore.descending key (slice_to k l).
Proof. unfold slice_to. apply firstn_descending. Qed.

Lemma slice_to_length (k : Z) (l : list A) :
  0 <= k -> Z.of_nat (List.length (slice_to k l)) <= k.
Proof.
  intros Hk. unfold slice_to.
  replace (k <? 0) with false by (symmetry; apply Z.ltb_ge; exact Hk).
  rewrite length_firstn. lia.
Qed.

End SortingFacts.

Lemma map_descending {A B : Type} (f : A -> B) (keyA : A -> R) (keyB : B -> R)
    (l : list A) :
  (forall a, keyB (f a) = keyA a) ->
  VectorStore.descending keyA l -> VectorStore.descending keyB (map f l).
Proof.
  intros Hkey. unfold VectorStore.descending.
  induction l as [| x l IH]; intros Hl; simpl; [constructor |].
  apply StronglySorted_inv in Hl. destruct Hl as [Hl Hx].
  constructor; [apply IH; exact Hl |].
  apply Forall_forall. intros b Hb. apply in_map_iff in Hb.
  destruct Hb as [a [<- Ha]]. rewrite !Hkey.
  rewrite Forall_forall in Hx. apply Hx. exact Ha.
Qed.


(* ===================================================================== *)
(** * Reranking                                                            *)
(* ===================================================================== *)

Section RerankFacts.

Import OllamaClient.

Context {runtime : Runtime}.
Variable config : OllamaConfig.

Lemma byExistingScore_spec (documents : list Document) (topK : Z) :
  VectorStore.descending scored_score (byExistingScore documents topK)
  /\ (0 <= topK ->
      Z.of_nat (List.length (byExistingScore documents topK)) <= topK)
  /\ Forall (standsFor documents) (byExistingScore documents topK).
Proof.
  unfold byExistingScore. split; [| split].
  - apply (map_descending _ scoreOrZero); [reflexivity |].
    apply slice_to_descending. apply sortDescending_descending.
  - intros Hk. rewrite length_map. apply slice_to_length. exact Hk.
  - apply Forall_forall. intros d Hd. apply in_map_iff in Hd.
    destruct Hd as [doc [<- Hdoc]]. exists doc.
    split; [| split; reflexivity].
    apply slice_to_In in Hdoc. apply sortDescending_In in Hdoc. exact Hdoc.
Qed.

Lemma clamp01_range (x : R) : (0 <= clamp01 x <= 1)%R.
Proof.
  unfold clamp01, Rmin, Rmax.
  destruct (Rle_dec 0 x); destruct (Rle_dec 1 _); lra.
Qed.

Lemma rerankLoop_spec (model : string) (documents : list Document) :
  forall (all : list Document) (acc out : list ScoredDocument) (s s' : Server),
    incl documents all ->
    Forall (fun d => standsFor all d /\ (0 <= scored_score d <= 1)%R) acc ->
    rerankLoop model documents acc s = (Returns out, s') ->
    Forall (fun d => standsFor all d /\ (0 <= scored_score d <= 1)%R) out.
Proof.
  induction documents as [| doc rest IH]; intros all acc out s s' Hincl Hacc Hrun.
  - simpl in Hrun. injection Hrun as <- _. exact Hacc.
  - simpl in Hrun. unfold bind in Hrun.
    destruct (client_generate model s) as [[response | e] s1]; [| discriminate].
    eapply IH; [| | exact Hrun].
    + intros x Hx. apply Hincl. right. exact Hx.
    + apply Forall_app. split; [exact Hacc |].
      constructor; [| constructor]. split.
      * exists doc. split; [apply Hincl; left; reflexivity | split; reflexivity].
      * simpl. destruct (matchNumber response); [apply clamp01_range | lra].
Qed.

Lemma rerank_spec (query : string) (documents : list Document)
    (topK : Z) (server : Server) :
  exists ranked server',
    rerank config query documents topK server = (Returns ranked, server')
    /\ VectorStore.descending scored_score ranked
    /\ (0 <= topK -> Z.of_nat (List.length ranked) <= topK)
    /\ Forall (standsFor documents) ranked.
Proof.
  destruct (byExistingScore_spec documents topK) as [Hsorted [Hlen Hfrom]].
  unfold rerank.
  destruct (rerankerModel config) as [model |];
    [| exists (byExistingScore documents topK), server; auto].
  destruct (nonempty model);
    [| exists (byExistingScore documents topK), server; auto].
  unfold tryCatch, bind.
  destruct (rerankLoop model documents [] server) as [[reranked | e] s1] eqn:Hloop.
  - exists (slice_to topK (sortDescending scored_score reranked)), s1.
    split; [reflexivity | split; [| split]].
    + apply slice_to_descending. apply sortDescending_descending.
    + apply slice_to_length.
    + pose proof (rerankLoop_spec model documents documents [] reranked
                    server s1 (incl_refl _) (Forall_nil _) Hloop) as Hall.
      apply Forall_forall. intros d Hd.
      apply slice_to_In in Hd. apply sortDescending_In in Hd.
      rewrite Forall_forall in Hall. apply (Hall d Hd).
  - exists (byExistingScore documents topK), s1. auto.
Qed.

(** X9. [rerank] never throws.  The list it returns is in descending order
    of score, holds at most [topK] documents when [topK] is not negative,
    and each of its entries carries the id and content of one of the
    documents given. *)
Theorem rerank_returns_ranked (query : string) (documents : list Document)
    (topK : Z) (server : Server) :
  exists ranked server',
    rerank config query documents topK server = (Returns ranked, server')
    /\ VectorStore.descending scored_score ranked
    /\ (0 <= topK -> Z.of_nat (List.length ranked) <= topK)
    /\ Forall (standsFor documents) ranked.
Proof. exact (rerank_spec query documents topK server). Qed.

Lemma rerankLoop_answered (model : string) (documents : list Document) :
  forall (acc : list ScoredDocument) (s : Server),
    (List.length documents <= List.length (script s))%nat ->
    Forall responds (firstn (List.length documents) (script s)) ->
    exists out,
      rerankLoop model documents acc s
      = (Returns out, Nat.iter (List.length documents) (consumed model) s).
Proof.
  induction documents as [| doc rest IH]; intros acc s Hlen Hall.
  - exists acc. reflexivity.
  - simpl in Hlen, Hall.
    destruct (script s) as [| r script'] eqn:Hs; [simpl in Hlen; lia |].
    simpl in Hlen, Hall.
    pose proof (Forall_inv Hall) as Hr. pose proof (Forall_inv_tail Hall) as Hrest.
    destruct r as [e | response]; [destruct Hr |].
    destruct (IH (acc ++
                  [{| scored_id := doc_id doc; scored_content := doc_content doc;
                      scored_score :=
                        match matchNumber response with
                        | Some x => clamp01 x
                        | None => (1 / 2)%R
                        end |}]) (consumed model s)) as [out Hout].
    + simpl. rewrite Hs. simpl. lia.
    + simpl. rewrite Hs. exact Hrest.
    + exists out. simpl rerankLoop. unfold bind, client_generate. rewrite Hs.
      rewrite Hout. f_equal. simpl. rewrite Nat.iter_swap. reflexivity.
Qed.

(** X10. With a reranker model configured and answering one call per
    document, every score that [rerank] returns lies between 0 and 1, and
    the reranker was called exactly once per document and no other model
    was called. *)
Theorem reranked_scores_clamped (query model : string)
    (documents : list Document) (topK : Z) (server : Server) :
  rerankerModel config = Some model ->
  nonempty model = true ->
  (List.length documents <= List.length (script server))%nat ->
  Forall responds (firstn (List.length documents) (script server)) ->
  exists ranked server',
    rerank config query documents topK server = (Returns ranked, server')
    /\ Forall (fun d => (0 <= scored_score d <= 1)%R) ranked
    /\ generateCalls server'
       = generateCalls server ++ repeat model (List.length documents).
Proof.
  intros Hmodel Hne Hlen Hall. unfold rerank. rewrite Hmodel, Hne.
  destruct (rerankLoop_answered model documents [] server Hlen Hall)
    as [out Hout].
  unfold tryCatch, bind. rewrite Hout.
  eexists _, _. split; [reflexivity | split].
  - pose proof (rerankLoop_spec model documents documents [] out server _
                  (incl_refl _) (Forall_nil _) Hout) as Hspec.
    apply Forall_forall. intros d Hd.
    apply slice_to_In in Hd. apply sortDescending_In in Hd.
    rewrite Forall_forall in Hspec. apply (Hspec d Hd).
  - apply (consumed_calls model server (List.length documents)).
Qed.

(** X11. When a call of the reranker is rejected, [rerank] returns the
    documents ordered by their existing scores, as it does without a
    reranker: the failure is not passed on. *)
Theorem rerank_failure_passes_through (query model : string)
    (documents : list Document) (topK : Z) (server : Server) (k : nat)
    (e : string) :
  rerankerModel config = Some model ->
  (k < List.length documents)%nat ->
  Forall responds (firstn k (script server)) ->
  nth_error (script server) k = Some (Rejects e) ->
  exists server',
    rerank config query documents topK server
    = (Returns (byExistingScore documents topK), server').
Proof.
  intros Hmodel Hk Hall Hnth. unfold rerank. rewrite Hmodel.
  destruct (nonempty model); [| eexists; reflexivity].
  unfold tryCatch, bind.
  assert (Hthrows : forall docs acc s,
            (k < List.length docs)%nat ->
            Forall responds (firstn k (script s)) ->
            nth_error (script s) k = Some (Rejects e) ->
            exists s', rerankLoop model docs acc s = (Throws e, s')).
  { clear Hk Hall Hnth. induction k as [| k IH]; intros docs acc s Hk Hall Hnth.
    - destruct docs as [| doc rest]; [simpl in Hk; lia |].
      destruct (script s) as [| r rest'] eqn:Hs; [discriminate |].
      simpl in Hnth. injection Hnth as ->.
      simpl. unfold bind, client_generate. rewrite Hs. eexists. reflexivity.
    - destruct docs as [| doc rest]; [simpl in Hk; lia |].
      destruct (script s) as [| r rest'] eqn:Hs; [discriminate |].
      simpl in Hnth, Hall, Hk.
      pose proof (Forall_inv Hall) as Hr.
      pose proof (Forall_inv_tail Hall) as Hrest.
      destruct r as [e0 | response]; [destruct Hr |].
      simpl rerankLoop. unfold bind, client_generate. rewrite Hs.
      apply IH; [lia | simpl; rewrite Hs; exact Hrest
                | simpl; rewrite Hs; exact Hnth]. }
  destruct (Hthrows documents [] server Hk Hall Hnth) as [s' Hs'].
  rewrite Hs'. eexists. reflexivity.
Qed.

End RerankFacts.


(* ===================================================================== *)
(** * Embedding in batches                                                 *)
(* ===================================================================== *)

Section EmbeddingFacts.

Import OllamaClient.

Variable config : OllamaConfig.

(** Embedding calls leave the server as it is. *)
Lemma generateEmbeddingResult_run (text : string) (s : Server) :
  generateEmbeddingResult config text s
  = (match embeddings s text with
     | Returns e =>
         Returns {| embedding := e; model := embeddingModel config;
                    prompt := text |}
     | Throws e =>
         Throws ("Failed to generate embedding: " ++ showError e)%string
     end, s).
Proof.
  unfold generateEmbeddingResult, bind, generateEmbedding, tryCatch,
    client_embeddings, throw, ret.
  destruct (embeddings s text); reflexivity.
Qed.

Lemma promiseAll_app {A : Type} (l1 l2 : list (M A)) (s : Server) :
  promiseAll (l1 ++ l2) s
  = match promiseAll l1 s with
    | (Returns a, s1) =>
        match promiseAll l2 s1 with
        | (Returns b, s2) => (Returns (a ++ b), s2)
        | (Throws e, s2) => (Throws e, s2)
        end
    | (Throws e, s1) => (Throws e, s1)
    end.
Proof.
  revert s. induction l1 as [| call l1 IH]; intros s; simpl.
  - destruct (promiseAll l2 s) as [[b | e] s2]; reflexivity.
  - unfold bind. destruct (call s) as [[a | e] s1]; [| reflexivity].
    rewrite IH.
    destruct (promiseAll l1 s1) as [[a1 | e1] s2]; [| reflexivity].
    unfold ret.
    destruct (promiseAll l2 s2) as [[b | e2] s3]; reflexivity.
Qed.

Lemma firstn_plus {A : Type} (n m : nat) :
  forall l : list A, firstn (n + m) l = firstn n l ++ firstn m (skipn n l).
Proof.
  induction n as [| n IH]; intros l; [reflexivity |].
  destruct l as [| a l]; [simpl; rewrite firstn_nil; reflexivity |].
  simpl. rewrite IH. reflexivity.
Qed.

(** The batches of ten, run in turn, are one [Promise.all] over the texts
    they cover. *)
Lemma batchLoop_run (remaining : nat) :
  forall (i : nat) (texts : list string) (results : list EmbeddingResult)
         (s : Server),
    batchLoop config remaining i texts results s
    = match promiseAll
              (map (generateEmbeddingResult config)
                 (firstn (10 * remaining) (skipn i texts))) s with
      | (Returns b, s') => (Returns (results ++ b), s')
      | (Throws e, s') => (Throws e, s')
      end.
Proof.
  induction remaining as [| r IH]; intros i texts results s.
  - simpl. rewrite app_nil_r. reflexivity.
  - change (batchLoop config (S r) i texts results s)
      with (bind
              (promiseAll
                 (map (generateEmbeddingResult config)
                    (firstn 10 (skipn i texts))))
              (fun batchResults =>
                 batchLoop config r (i + 10) texts (results ++ batchResults))
              s).
    replace (10 * S r)%nat with (10 + 10 * r)%nat by lia.
    rewrite firstn_plus, skipn_skipn.
    replace (10 + i)%nat with (i + 10)%nat by lia.
    generalize (firstn 10 (skipn i texts)) as batch. intros batch.
    rewrite map_app, promiseAll_app. unfold bind.
    destruct (promiseAll (map (generateEmbeddingResult config) batch) s)
      as [[a | e] s1]; [| reflexivity].
    rewrite IH.
    destruct (promiseAll
                (map (generateEmbeddingResult config)
                   (firstn (10 * r) (skipn (i + 10) texts))) s1)
      as [[b | e] s2]; [| reflexivity].
    rewrite app_assoc. reflexivity.
Qed.

Lemma generateEmbeddings_run (texts : list string) (s : Server) :
  generateEmbeddings config texts s
  = promiseAll (map (generateEmbeddingResult config) texts) s.
Proof.
  unfold generateEmbeddings. rewrite batchLoop_run. simpl skipn.
  rewrite firstn_all2.
  - destruct (promiseAll (map (generateEmbeddingResult config) texts) s)
      as [[b | e] s']; reflexivity.
  - pose proof (Nat.div_mod_eq (List.length texts + 9) 10) as Hdiv.
    pose proof (Nat.mod_upper_bound (List.length texts + 9) 10) as Hmod.
    lia.
Qed.

Lemma generateEmbeddings_answers (texts : list string) (server : Server) :
  (forall text, In text texts ->
     exists e, embeddings server text = Returns e) ->
  exists results,
    generateEmbeddings config texts server = (Returns results, server)
    /\ Forall2
         (fun text r =>
            embeddings server text = Returns (embedding r)
            /\ prompt r = text /\ model r = embeddingModel config)
         texts results.
Proof.
  rewrite generateEmbeddings_run.
  induction texts as [| text texts IH]; intros Hall.
  - exists []. split; [reflexivity | constructor].
  - destruct (Hall text (or_introl eq_refl)) as [e He].
    destruct IH as [results [Hrun Hres]].
    { intros t Ht. apply Hall. right. exact Ht. }
    exists ({| embedding := e; model := embeddingModel config; prompt := text |}
            :: results).
    split.
    + simpl. unfold bind. rewrite generateEmbeddingResult_run, He, Hrun.
      reflexivity.
    + constructor; [| exact Hres]. simpl. auto.
Qed.

(** X12. When the embedding endpoint answers for every text,
    [generateEmbeddings] returns one result per text, in the order of the
    texts whatever their number: the i-th result holds the embedding of the
    i-th text, that text as prompt and the embedding model; the server is
    left as it was. *)
Theorem embeddings_keep_order (texts : list string) (server : Server) :
  (forall text, In text texts ->
     exists e, embeddings server text = Returns e) ->
  exists results,
    generateEmbeddings config texts server = (Returns results, server)
    /\ Forall2
         (fun text r =>
            embeddings server text = Returns (embedding r)
            /\ prompt r = text /\ model r = embeddingModel config)
         texts results.
Proof. exact (generateEmbeddings_answers texts server). Qed.

(** X13. When the embedding endpoint rejects one of the texts,
    [generateEmbeddings] throws and returns no embedding at all. *)
Theorem embeddings_all_or_nothing (texts : list string) (server : Server)
    (text e : string) :
  In text texts ->
  embeddings server text = Throws e ->
  exists message,
    generateEmbeddings config texts server = (Throws message, server).
Proof.
  rewrite generateEmbeddings_run.
  induction texts as [| t texts IH]; intros Hin He; [destruct Hin |].
  simpl. unfold bind. rewrite generateEmbeddingResult_run.
  destruct (embeddings server t) as [v | e0] eqn:Ht; [| eexists; reflexivity].
  destruct Hin as [-> | Hin]; [congruence |].
  destruct (IH Hin He) as [message Hm]. rewrite Hm. eexists. reflexivity.
Qed.

End EmbeddingFacts.


(* ===================================================================== *)
(** * Cosine similarity                                                    *)
(* ===================================================================== *)

Section CosineFacts.

Import VectorStore.

Local Open Scope R_scope.



Lemma sums_swap (a b : list R) :
  dotOf (combine a b) = dotOf (combine b a)
  /\ squaresOfFst (combine a b) = squaresOfSnd (combine b a)
  /\ squaresOfSnd (combine a b) = squaresOfFst (combine b a).
Proof.
  revert b. induction a as [| x a IH]; intros b.
  - destruct b; simpl; repeat split; reflexivity.
  - destruct b as [| y b]; [simpl; repeat split; reflexivity |].
    destruct (IH b) as [H1 [H2 H3]]. simpl. rewrite H1, H2, H3.
    repeat split; lra.
Qed.

Lemma squares_of_zeros (a b : list R) :
  Forall (fun x => x = 0) a -> squaresOfFst (combine a b) = 0.
Proof.
  revert b. induction a as [| x a IH]; intros b Hall; [reflexivity |].
  destruct b as [| y b]; [reflexivity |].
  inversion Hall as [| ? ? Hx Hrest]; subst. simpl. rewrite (IH b Hrest). lra.
Qed.


(** X15. When all components of one of two vectors of equal length are
    zero, their cosine similarity is 0: the division by a zero norm is
    never carried out. *)
Theorem cosine_of_zero_vector (a b : list R) :
  List.length a = List.length b ->
  Forall (fun x => x = 0) a \/ Forall (fun x => x = 0) b ->
  cosineSimilarity a b = Returns 0.
Proof.
  intros Hlen Hzero. unfold cosineSimilarity.
  rewrite (proj2 (Nat.eqb_eq _ _) Hlen). simpl negb. cbv iota.
  rewrite fold_accumulate. unfold isZero.
  destruct Hzero as [Ha | Hb].
  - rewrite (squares_of_zeros a b Ha).
    destruct (Req_dec_T (0 + 0) 0) as [_ | H]; [reflexivity | exfalso; lra].
  - destruct (sums_swap a b) as [_ [_ Hsnd]].
    rewrite Hsnd, (squares_of_zeros b a Hb).
    destruct (Req_dec_T (0 + squaresOfFst (combine a b)) 0);
      destruct (Req_dec_T (0 + 0) 0) as [_ | H]; try reflexivity;
      exfalso; lra.
Qed.

(** X16. [cosineSimilarity] is symmetric: exchanging its arguments changes
    neither the value returned nor the error thrown. *)
Theorem cosine_symmetric (a b : list R) :
  cosineSimilarity a b = cosineSimilarity b a.
Proof.
  unfold cosineSimilarity. rewrite (Nat.eqb_sym (List.length b)).
  destruct (negb (Nat.eqb (List.length a) (List.length b))); [reflexivity |].
  rewrite !fold_accumulate.
  destruct (sums_swap a b) as [Hdot [Hfst Hsnd]]. rewrite Hdot, Hfst, Hsnd.
  rewrite (orb_comm (isZero (0 + squaresOfSnd (combine b a)))).
  destruct (isZero (0 + squaresOfFst (combine b a))
            || isZero (0 + squaresOfSnd (combine b a)))%bool; [reflexivity |].
  f_equal. f_equal. apply Rmult_comm.
Qed.

End CosineFacts.


(** Witness of X15: the zero vector against (3, 4). *)
Lemma cosine_of_zero_vector_witness :
  VectorStore.cosineSimilarity [0%R; 0%R] [3%R; 4%R] = Js.Returns 0%R.
Proof.
  apply (cosine_of_zero_vector [0%R; 0%R] [3%R; 4%R]).
  - reflexivity.
  - left. repeat constructor.
Defined.


(* ===================================================================== *)
(** * Search results                                                       *)
(* ===================================================================== *)

Section ResultFacts.

Import DocumentProcessor VectorStore.

Lemma insertByScore_insertDocument (x : VectorSearchResult)
    (l : list VectorSearchResult) :
  insertByScore x l = OllamaClient.insertDocument score x l.
Proof.
  induction l as [| y l IH]; simpl; [reflexivity |].
  rewrite IH. reflexivity.
Qed.

Lemma sortByScore_sortDescending (l : list VectorSearchResult) :
  sortByScore l = OllamaClient.sortDescending score l.
Proof.
  induction l as [| x l IH]; simpl; [reflexivity |].
  rewrite IH. apply insertByScore_insertDocument.
Qed.

Lemma scanRows_from_rows (queryEmbedding : list R) (rows : list Row) :
  forall (all : list Row) (results results' : list VectorSearchResult),
    incl rows all ->
    Forall (scanned all) results ->
    scanRows queryEmbedding rows results = Returns results' ->
    Forall (scanned all) results'.
Proof.
  induction rows as [| row rows IH]; intros all results results' Hincl Hacc; simpl.
  - intros H. injection H as <-. exact Hacc.
  - assert (Hrest : incl rows all) by (intros x Hx; apply Hincl; right; exact Hx).
    destruct (row_embedding row) as [blob |]; [| apply IH; assumption].
    destruct (cosineSimilarity queryEmbedding (decodeEmbedding blob));
      [| discriminate].
    apply IH; [exact Hrest |].
    apply Forall_app. split; [exact Hacc |].
    constructor; [| constructor]. exists row.
    split; [apply Hincl; left; reflexivity | reflexivity].
Qed.

Lemma cosineSimilaritySearch_from_rows (db : Database) (q : list R) (topK : Z)
    (documentIds : option (list string)) (results : list VectorSearchResult) :
  cosineSimilaritySearch db q topK documentIds = Returns results ->
  Forall
    (scanned
       (filter
          (fun row =>
             (match row_embedding row with Some _ => true | None => false end
              && inFilter documentIds row)%bool)
          (document_embeddings db)))
    results.
Proof.
  unfold cosineSimilaritySearch.
  match goal with
  | |- context [scanRows q ?rows []] =>
      destruct (scanRows q rows []) as [found | e] eqn:Hscan; [| discriminate]
  end.
  intros H. injection H as <-.
  pose proof (scanRows_from_rows q _ _ [] found (incl_refl _) (Forall_nil _) Hscan)
    as Hall.
  rewrite Forall_forall in Hall. apply Forall_forall. intros r Hr.
  apply Hall. apply sortByScore_In. apply (slice_to_In topK). exact Hr.
Qed.

Lemma vectorSearch_from_rows (db : Database) (q : list R) (topK : Z)
    (documentIds : option (list string)) (results : list VectorSearchResult) :
  vectorSearch db q topK documentIds = Returns results ->
  Forall (scanned (document_embeddings db)) results.
Proof.
  unfold vectorSearch.
  destruct (hasFilter documentIds); [discriminate |].
  destruct (vec_embeddings db) as [vec |]; [| discriminate].
  intros H. injection H as <-.
  apply Forall_forall. intros r Hr. apply in_map_iff in Hr.
  destruct Hr as [[row d] [<- Hin]]. apply in_flat_map in Hin.
  destruct Hin as [hit [_ Hrow]]. apply in_map_iff in Hrow.
  destruct Hrow as [row' [Heq Hrow']]. injection Heq as -> _.
  apply filter_In in Hrow'. exists row. split; [exact (proj1 Hrow') | reflexivity].
Qed.

(** X17. The results of the fallback scan come in descending order of
    score, number at most [topK] when [topK] is not negative, and each is
    the chunk of a stored row that has an embedding and belongs to the
    document filter. *)
Theorem scan_results_ranked (db : Database) (queryEmbedding : list R)
    (topK : Z) (documentIds : option (list string))
    (results : list VectorSearchResult) :
  cosineSimilaritySearch db queryEmbedding topK documentIds = Returns results ->
  descending score results
  /\ (0 <= topK -> Z.of_nat (List.length results) <= topK)
  /\ Forall
       (fun r =>
          exists row,
            In row (document_embeddings db)
            /\ row_embedding row <> None
            /\ inFilter documentIds row = true
            /\ chunk r = rowToChunk row)
       results.
Proof.
  intros Hrun. split; [| split].
  - unfold cosineSimilaritySearch in Hrun.
    match type of Hrun with
    | context [scanRows queryEmbedding ?rows []] =>
        destruct (scanRows queryEmbedding rows []) as [found | e];
          [| discriminate]
    end.
    injection Hrun as <-. rewrite sortByScore_sortDescending.
    apply slice_to_descending. apply sortDescending_descending.
  - intros Hk. unfold cosineSimilaritySearch in Hrun.
    match type of Hrun with
    | context [scanRows queryEmbedding ?rows []] =>
        destruct (scanRows queryEmbedding rows []) as [found | e];
          [| discriminate]
    end.
    injection Hrun as <-. apply slice_to_length. exact Hk.
  - apply cosineSimilaritySearch_from_rows in Hrun.
    eapply Forall_impl; [| exact Hrun]. simpl.
    intros r [row [Hin Hchunk]]. apply filter_In in Hin.
    destruct Hin as [Hin Hsel]. apply andb_prop in Hsel.
    destruct Hsel as [Hemb Hscope]. exists row.
    split; [exact Hin | split; [| split; [exact Hscope | exact Hchunk]]].
    destruct (row_embedding row); [discriminate | discriminate].
Qed.

(** X18. With a non-empty document filter, every chunk that
    [searchSimilar] returns belongs to one of the documents of the
    filter. *)
Theorem search_respects_filter (db : Database) (queryEmbedding : list R)
    (topK : Z) (documentIds : list string)
    (results : list VectorSearchResult) :
  documentIds <> [] ->
  searchSimilar db queryEmbedding topK (Some documentIds) = Returns results ->
  Forall (fun r => In (documentId (chunk r)) documentIds) results.
Proof.
  intros Hne. destruct documentIds as [| d ds]; [contradiction |].
  unfold searchSimilar, vectorSearch. simpl hasFilter. cbv iota.
  intros Hrun. apply cosineSimilaritySearch_from_rows in Hrun.
  eapply Forall_impl; [| exact Hrun]. simpl.
  intros r [row [Hin Hchunk]]. apply filter_In in Hin.
  destruct Hin as [_ Hsel]. apply andb_prop in Hsel. destruct Hsel as [_ Hscope].
  rewrite Hchunk. simpl documentId. simpl in Hscope.
  apply orb_prop in Hscope. destruct Hscope as [Hd | Hds].
  - left. apply String.eqb_eq in Hd. symmetry. exact Hd.
  - right. apply existsb_exists in Hds. destruct Hds as [x [Hx Heq]].
    apply String.eqb_eq in Heq. rewrite Heq. exact Hx.
Qed.

(** ** Deleting a document *)

Lemma orderByIndex_In (y : Row) (l : list Row) :
  In y (orderByIndex l) <-> In y l.
Proof.
  assert (Hins : forall x l0, In y (insertByIndex x l0) <-> y = x \/ In y l0).
  { intros x l0. induction l0 as [| z l0 IH]; simpl.
    - split; intros [H | []]; left; symmetry; exact H.
    - destruct (row_chunk_index x <=? row_chunk_index z); simpl.
      + split; intros [H | H]; auto.
      + rewrite IH. split; [intros [H | [H | H]] | intros [H | [H | H]]]; auto. }
  induction l as [| x l IH]; simpl; [tauto |].
  rewrite Hins, IH. split; intros [H | H]; auto.
Qed.

(** X19. On a store with the index table, [deleteDocument] returns a store
    in which the document has no chunk left, the chunks of every other
    document are listed as before, and no search, on either path, returns
    a chunk of the deleted document. *)
Theorem deleted_document_is_gone (db : Database) (docId : string)
    (vec : VecTable) :
  vec_embeddings db = Some vec ->
  exists db',
    deleteDocument db docId = Returns db'
    /\ getChunksByDocumentId db' docId = []
    /\ (forall other, other <> docId ->
          getChunksByDocumentId db' other = getChunksByDocumentId db other)
    /\ (forall q topK documentIds results,
          searchSimilar db' q topK documentIds = Returns results ->
          Forall (fun r => documentId (chunk r) <> docId) results).
Proof.
  intros Hvec. unfold deleteDocument. rewrite Hvec.
  eexists. split; [reflexivity | split; [| split]].
  - unfold getChunksByDocumentId. simpl document_embeddings.
    replace (filter (fun r => String.eqb (row_document_id r) docId)
               (filter (fun r => negb (String.eqb (row_document_id r) docId))
                  (document_embeddings db)))
      with (@nil Row); [reflexivity |].
    symmetry. induction (document_embeddings db) as [| row rows IH];
      [reflexivity |].
    simpl. destruct (String.eqb (row_document_id row) docId) eqn:Hrow; simpl;
      [exact IH | rewrite Hrow; exact IH].
  - intros other Hother. unfold getChunksByDocumentId. simpl document_embeddings.
    f_equal. f_equal.
    induction (document_embeddings db) as [| row rows IH]; [reflexivity |].
    simpl. destruct (String.eqb (row_document_id row) docId) eqn:Hrow; simpl.
    + apply String.eqb_eq in Hrow.
      replace (String.eqb (row_document_id row) other) with false; [exact IH |].
      symmetry. apply String.eqb_neq. congruence.
    + rewrite IH. reflexivity.
  - intros q topK documentIds results Hrun.
    assert (Hfrom : Forall
                      (scanned
                         (filter
                            (fun r => negb (String.eqb (row_document_id r) docId))
                            (document_embeddings db)))
                      results).
    { unfold searchSimilar in Hrun.
      match type of Hrun with
      | context [vectorSearch ?d q topK documentIds] =>
          destruct (vectorSearch d q topK documentIds) as [rs | e] eqn:Hv
      end.
      - injection Hrun as <-. apply vectorSearch_from_rows in Hv. exact Hv.
      - apply cosineSimilaritySearch_from_rows in Hrun.
        eapply Forall_impl; [| exact Hrun]. simpl.
        intros r [row [Hin Hchunk]]. apply filter_In in Hin.
        exists row. split; [exact (proj1 Hin) | exact Hchunk]. }
    eapply Forall_impl; [| exact Hfrom]. simpl.
    intros r [row [Hin Hchunk]]. apply filter_In in Hin.
    destruct Hin as [_ Hkeep]. rewrite Hchunk. simpl.
    apply negb_true_iff in Hkeep. apply String.eqb_neq. exact Hkeep.
Qed.

End ResultFacts.


(* ===================================================================== *)
(** * Writing and reading chunks                                           *)
(* ===================================================================== *)

Section StorageFacts.

Import DocumentProcessor VectorStore.

Context {engine : Engine}.








Lemma insertByIndex_ordered (x : Row) (l : list Row) :
  StronglySorted (fun a b => row_chunk_index a <= row_chunk_index b) l ->
  StronglySorted (fun a b => row_chunk_index a <= row_chunk_index b)
    (insertByIndex x l).
Proof.
  induction l as [| z l IH]; intros Hl; simpl.
  - constructor; constructor.
  - apply StronglySorted_inv in Hl. destruct Hl as [Hl Hz].
    destruct (row_chunk_index x <=? row_chunk_index z) eqn:Hle.
    + apply Z.leb_le in Hle. constructor; [constructor; assumption |].
      constructor; [exact Hle |].
      eapply Forall_impl; [| exact Hz]. simpl. intros a Ha. lia.
    + apply Z.leb_gt in Hle. constructor; [apply IH; exact Hl |].
      assert (Hins : forall y, In y (insertByIndex x l) -> y = x \/ In y l).
      { clear. induction l as [| w l IH]; simpl.
        - intros y [H | []]. left. symmetry. exact H.
        - intros y. destruct (row_chunk_index x <=? row_chunk_index w); simpl.
          + intros [H | H]; [left; symmetry; exact H | right; exact H].
          + intros [H | H]; [right; left; exact H |].
            destruct (IH y H) as [H' | H']; [left; exact H' | right; right; exact H']. }
      apply Forall_forall. intros a Ha. apply Hins in Ha.
      destruct Ha as [-> | Ha]; [lia |].
      rewrite Forall_forall in Hz. apply Hz. exact Ha.
Qed.

(** X21. [getChunksByDocumentId] lists chunks of the requested document
    only, each read from a stored row, in ascending order of chunk index. *)
Theorem document_chunks_ordered (db : Database) (docId : string) :
  let listed := getChunksByDocumentId db docId in
  StronglySorted (fun a b => chunkIndex a <= chunkIndex b) listed
  /\ Forall
       (fun c =>
          documentId c = docId
          /\ exists row, In row (document_embeddings db) /\ c = rowToChunk row)
       listed
  /\ List.length listed
     = List.length
         (filter (fun r => String.eqb (row_document_id r) docId)
            (document_embeddings db)).
Proof.
  simpl. unfold getChunksByDocumentId.
  set (rows := filter (fun r => String.eqb (row_document_id r) docId)
                 (document_embeddings db)).
  split; [| split].
  - assert (Hsorted : StronglySorted
              (fun a b => row_chunk_index a <= row_chunk_index b)
              (orderByIndex rows)).
    { induction rows as [| x l IH]; simpl; [constructor |].
      apply insertByIndex_ordered. exact IH. }
    induction Hsorted as [| a l Hl IH Ha]; simpl; [constructor |].
    constructor; [exact IH |].
    apply Forall_forall. intros c Hc. apply in_map_iff in Hc.
    destruct Hc as [r [<- Hr]]. rewrite Forall_forall in Ha. apply (Ha r Hr).
  - apply Forall_forall. intros c Hc. apply in_map_iff in Hc.
    destruct Hc as [row [<- Hrow]].
    apply (proj1 (orderByIndex_In row rows)) in Hrow.
    apply filter_In in Hrow. destruct Hrow as [Hin Hdoc].
    split; [apply String.eqb_eq; exact Hdoc |].
    exists row. split; [exact Hin | reflexivity].
  - rewrite length_map. clear. induction rows as [| x l IH]; [reflexivity |].
    simpl. rewrite <- IH. clear IH. generalize (orderByIndex l). intros sorted.
    induction sorted as [| z sorted IH]; simpl; [reflexivity |].
    destruct (row_chunk_index x <=? row_chunk_index z); simpl;
      [reflexivity | rewrite IH; reflexivity].
Qed.

End StorageFacts.


(* ===================================================================== *)
(** * Ingestion                                                            *)
(* ===================================================================== *)

Section IngestionFacts.

Import VectorStore OllamaClient RAGPipeline.

Context {platform : DP.Platform} {engine : Engine}.
Variable config : RAGConfig.

(** X22. On a store without the index table, [ingestURL] never returns:
    whatever the text and the answers of the embedding endpoint, it throws,
    because [addChunks] prepares its statement on the index table before
    writing anything. *)
Theorem ingestion_needs_index_table (db : Database) (url content : string)
    (server : Server) :
  vec_embeddings db = None ->
  exists message server',
    ingestURL config db url content server = (Throws message, server').
Proof.
  intros Hvec. unfold ingestURL, tryCatch, ingestBody, bind, lift.
  destruct (DP.processURL (chunking config) url content) as [processed | e];
    [| eexists _, _; reflexivity].
  destruct (generateEmbeddings (ollama config)
              (map DP.content (DP.processedChunks processed)) server)
    as [[embeddings | e] s1]; [| eexists _, _; reflexivity].
  unfold addChunks. rewrite Hvec. eexists _, _. reflexivity.
Qed.




End IngestionFacts.


(* ===================================================================== *)
(** * Queries that retrieve                                                *)
(* ===================================================================== *)

Section RetrievalFacts.

Import VectorStore OllamaClient RAGPipeline.

Context {runtime : Runtime} {formatting : Formatting}.
Variable config : RAGConfig.


(** X25. A query restricted to documents throws when the store holds, for
    one of them, a row whose BLOB was written for an embedding of the
    dimension of the question's embedding: the scan reads that BLOB with
    four times as many components, the length error of [cosineSimilarity]
    is wrapped by [query], and the generative model is not called. *)
Theorem scoped_query_throws_on_stored_embedding
    (binary32 : R -> byte * byte * byte * byte) (db : Database)
    (question : string) (documentIds : list string)
    (options : option QueryOptions) (server : Server)
    (queryEmbedding embedding : list R) (row : Row) :
  embeddings server question = Returns queryEmbedding ->
  queryEmbedding <> [] ->
  In row (document_embeddings db) ->
  In (row_document_id row) documentIds ->
  row_embedding row = Some (embeddingBlob binary32 embedding) ->
  List.length embedding = List.length queryEmbedding ->
  query config db question (Some documentIds) options server
  = (Throws
       "Failed to process query: Error: Vectors must have the same length",
     server).
Proof.
  intros He Hnonempty Hrow Hdoc Hblob Hdim.
  assert (Hsearch : searchSimilar db queryEmbedding
                      (effectiveTopK config options) (Some documentIds)
                    = Throws "Vectors must have the same length").
  { destruct documentIds as [| d ds]; [destruct Hdoc |].
    unfold searchSimilar, vectorSearch. simpl hasFilter. cbv iota.
    unfold cosineSimilaritySearch.
    rewrite scanRows_throws; [reflexivity |].
    exists row, (embeddingBlob binary32 embedding). split; [| split].
    - apply filter_In. split; [exact Hrow |]. rewrite Hblob. simpl.
      destruct Hdoc as [<- | Hds].
      + rewrite String.eqb_refl. reflexivity.
      + apply orb_true_iff. right. apply existsb_exists.
        exists (row_document_id row). split; [exact Hds | apply String.eqb_refl].
    - exact Hblob.
    - rewrite embeddingBlob_length, Hdim.
      destruct queryEmbedding; [contradiction | simpl; lia]. }
  unfold query, tryCatch, queryBody, bind, generateEmbedding, tryCatch,
    client_embeddings, lift.
  rewrite He, Hsearch. reflexivity.
Qed.

Lemma traverse_total {A B : Type} (f : A -> option B) (l : list A) :
  (forall a, In a l -> f a <> None) -> exists bs, traverse f l = Some bs.
Proof.
  induction l as [| a l IH]; intros Hall; [exists []; reflexivity |].
  simpl. destruct (f a) as [b |] eqn:Hb;
    [| exfalso; apply (Hall a (or_introl eq_refl)); exact Hb].
  destruct IH as [bs Hbs]; [intros x Hx; apply Hall; right; exact Hx |].
  rewrite Hbs. eexists. reflexivity.
Qed.

(** The reranking stage returns whatever the reranker does. *)
Lemma rerankStage_returns (question : string) (options : option QueryOptions)
    (filteredChunks : list VectorSearchResult) (s : Server) :
  exists reranked s', rerankStage config question options filteredChunks s
                      = (Returns reranked, s').
Proof.
  unfold rerankStage.
  match goal with
  | |- context [if ?b then _ else _] => destruct b
  end; [| eexists _, _; reflexivity].
  unfold bind.
  match goal with
  | |- context [rerank ?c ?q ?docs ?k s] =>
      destruct (rerank_spec c q docs k s) as [ranked [s1 [Hrun [_ [_ Hfrom]]]]];
      rewrite Hrun
  end.
  destruct (traverse_total (rescored filteredChunks) ranked) as [chunks Hchunks].
  - intros d Hd. rewrite Forall_forall in Hfrom.
    destruct (Hfrom d Hd) as [doc [Hdoc [Hid _]]].
    apply in_map_iff in Hdoc. destruct Hdoc as [r [<- Hr]]. simpl in Hid.
    unfold rescored.
    destruct (find (fun c => String.eqb (DP.id (chunk c)) (scored_id d))
                filteredChunks) eqn:Hfind; [discriminate |].
    exfalso. apply (find_none _ _ Hfind) in Hr. simpl in Hr.
    rewrite Hid, String.eqb_refl in Hr. discriminate.
  - rewrite Hchunks. eexists _, _. reflexivity.
Qed.

(** X26. Once the question is embedded and the search has returned,
    [query] returns a result: failures of the reranker and of the
    generative model are never passed on.  The retrieved chunks it reports
    are exactly the search results whose score is at or above
    [confidenceThreshold], in the order of the search. *)
Theorem query_returns_after_retrieval (db : Database) (question : string)
    (scope : option (list string)) (options : option QueryOptions)
    (server : Server) (embedding : list R)
    (retrieved : list VectorSearchResult) :
  embeddings server question = Returns embedding ->
  searchSimilar db embedding (effectiveTopK config options) scope
  = Returns retrieved ->
  exists result server',
    query config db question scope options server = (Returns result, server')
    /\ retrievedChunks result
       = filter
           (fun r => geb (score r) (confidenceThreshold (retrieval config)))
           retrieved
    /\ Forall
         (fun r => (confidenceThreshold (retrieval config) <= score r)%R)
         (retrievedChunks result).
Proof.
  intros He Hsearch.
  assert (Hfilter : forall l : list VectorSearchResult,
            Forall
              (fun r => (confidenceThreshold (retrieval config) <= score r)%R)
              (filter
                 (fun r => geb (score r) (confidenceThreshold (retrieval config)))
                 l)).
  { intros l. apply Forall_forall. intros r Hr. apply filter_In in Hr.
    destruct Hr as [_ Hr]. unfold geb in Hr.
    destruct (Rle_dec (confidenceThreshold (retrieval config)) (score r));
      [assumption | discriminate]. }
  unfold query, tryCatch, queryBody, bind, generateEmbedding, tryCatch,
    client_embeddings, lift.
  rewrite He, Hsearch.
  set (filtered := filter
                     (fun r => geb (score r)
                                 (confidenceThreshold (retrieval config)))
                     retrieved).
  destruct (Nat.eqb (List.length filtered) 0) eqn:Hempty.
  - eexists _, _. split; [reflexivity |]. simpl.
    apply Nat.eqb_eq in Hempty. destruct filtered; [| discriminate].
    split; [reflexivity | constructor].
  - destruct (rerankStage_returns question options filtered server)
      as [reranked [s1 Hstage]].
    rewrite Hstage.
    match goal with
    | |- context [generateEvidenceTracedResponse ?c ?q ?ctx 3 s1] =>
        destruct (attempts_return c 2 0 3 s1 eq_refl) as [v [k [_ Hgen]]];
        unfold generateEvidenceTracedResponse;
        change (Z.to_nat 3) with 3%nat; rewrite Hgen
    end.
    eexists _, _. split; [reflexivity |]. simpl.
    split; [reflexivity | apply Hfilter].
Qed.

End RetrievalFacts.


(* ===================================================================== *)
(** * Reconciliation of evidence pointers                                  *)
(* ===================================================================== *)

Section ReconciliationLaws.

Import VectorStore OllamaClient RAGPipeline.

Variable contextChunks : list VectorSearchResult.

Lemma truthyQ_inject (o : option Z) :
  truthyQ (option_map inject_Z o) = truthyZ o.
Proof.
  destruct o as [z |]; [| reflexivity]. simpl. f_equal.
  unfold Qeq_bool. simpl. rewrite Z.mul_1_r.
  destruct z; reflexivity.
Qed.

Lemma nonempty_app (s t : string) :
  nonempty t = true -> nonempty (s ++ t) = true.
Proof. intros Ht. destruct s; [exact Ht | reflexivity]. Qed.

Lemma enhancePointer_idempotent (e : EvidencePointer) :
  enhancePointer contextChunks (enhancePointer contextChunks e)
  = enhancePointer contextChunks e.
Proof.
  assert (Hmatch : matchingChunk contextChunks (enhancePointer contextChunks e)
                   = matchingChunk contextChunks e).
  { unfold matchingChunk. rewrite enhancePointer_source. reflexivity. }
  unfold enhancePointer at 1. rewrite Hmatch. unfold enhancePointer.
  destruct (matchingChunk contextChunks e) as [m |]; [| reflexivity].
  pose proof (truthyQ_inject (DP.page (DP.metadata (chunk m)))) as Hpage.
  pose proof (truthyQ_inject (DP.lineStart (DP.metadata (chunk m)))) as Hline.
  pose proof (nonempty_app (String.substring 0 200 (DP.content (chunk m)))
                "..." eq_refl) as Hsnippet.
  destruct (truthyQ (page e)) eqn:Hp;
    destruct (truthyQ (lineStart e)) eqn:Hl;
    destruct (truthyString (snippet e)) eqn:Hs;
    destruct (truthyZ (DP.page (DP.metadata (chunk m)))) eqn:Hmp;
    destruct (truthyZ (DP.lineStart (DP.metadata (chunk m)))) eqn:Hml;
    destruct (nonempty (DP.content (chunk m))) eqn:Hc;
    repeat (simpl;
            first [rewrite Hp | rewrite Hl | rewrite Hs | rewrite Hpage
                  | rewrite Hline | rewrite Hsnippet | rewrite Hmp
                  | rewrite Hml | rewrite Hc]);
    reflexivity.
Qed.

(** X27. Reconciling a response a second time against the same context
    chunks changes nothing: every field that [enhanceEvidencePointers]
    fills is truthy afterwards, or has no truthy value to take from the
    matching chunk. *)
Theorem reconciliation_idempotent (response : EvidenceTracedResponse) :
  enhanceEvidencePointers
    (enhanceEvidencePointers response contextChunks) contextChunks
  = enhanceEvidencePointers response contextChunks.
Proof.
  unfold enhanceEvidencePointers. simpl. f_equal.
  rewrite map_map. apply map_ext. intros c.
  unfold enhanceClaim. simpl. f_equal.
  rewrite map_map. apply map_ext. apply enhancePointer_idempotent.
Qed.

(** X28. Reconciliation only fills locations: the summary, the
    confidences, the evidence gaps, and the text, the guideline and
    attribute ids and the source of every pointer of every claim are as the
    model answered them, and so are the pointers that match no context
    chunk and every page, first line and snippet that was already truthy. *)
Theorem reconciliation_only_fills_locations (response : EvidenceTracedResponse) :
  let reconciled := enhanceEvidencePointers response contextChunks in
  summary reconciled = summary response
  /\ overallConfidence reconciled = overallConfidence response
  /\ evidenceGaps reconciled = evidenceGaps response
  /\ map text (claims reconciled) = map text (claims response)
  /\ map guidelineIds (claims reconciled) = map guidelineIds (claims response)
  /\ map attributeIds (claims reconciled) = map attributeIds (claims response)
  /\ map confidence (claims reconciled) = map confidence (claims response)
  /\ Forall2
       (fun c' c =>
          Forall2
            (fun e' e =>
               sourcePathOrUrl e' = sourcePathOrUrl e
               /\ (matchingChunk contextChunks e = None -> e' = e)
               /\ (truthyQ (page e) = true -> page e' = page e)
               /\ (truthyQ (lineStart e) = true ->
                   lineStart e' = lineStart e /\ lineEnd e' = lineEnd e)
               /\ (truthyString (snippet e) = true -> snippet e' = snippet e))
            (evidencePointers c') (evidencePointers c))
       (claims reconciled) (claims response).
Proof.
  destruct (enhanceEvidencePointers_frame contextChunks response)
    as [H1 [H2 [H3 [H4 [H5 [H6 [H7 _]]]]]]].
  cbv zeta. repeat (split; [assumption |]).
  clear H1 H2 H3 H4 H5 H6 H7.
  simpl. induction (claims response) as [| c cs IH]; [constructor |].
  simpl. constructor; [| exact IH].
  simpl. induction (evidencePointers c) as [| e es IHe]; [constructor |].
  simpl. constructor; [| exact IHe].
  split; [apply enhancePointer_source |].
  split.
  - intros Hnone. unfold enhancePointer. rewrite Hnone. reflexivity.
  - exact (enhancePointer_keeps_truthy contextChunks e).
Qed.

End ReconciliationLaws.


(* ===================================================================== *)
(** * Pagination of the chunk listing                                      *)
(* ===================================================================== *)

Section PaginationFacts.

Import RagRoutes.

Lemma slice_window {A : Type} (a b : Z) (xs : list A) :
  0 <= a <= b ->
  slice a b xs = firstn (Z.to_nat (b - a)) (skipn (Z.to_nat a) xs).
Proof.
  intros Hab. unfold slice.
  replace (a <? 0) with false by (symmetry; apply Z.ltb_ge; lia).
  replace (b <? 0) with false by (symmetry; apply Z.ltb_ge; lia).
  set (n := Z.of_nat (List.length xs)).
  destruct (Z_le_gt_dec a n) as [Han | Han].
  - rewrite (Z.min_l a n) by lia.
    destruct (Z_le_gt_dec b n) as [Hbn | Hbn].
    + rewrite (Z.min_l b n) by lia. reflexivity.
    + rewrite (Z.min_r b n) by lia.
      rewrite !firstn_all2; [reflexivity | |]; rewrite length_skipn; lia.
  - rewrite (Z.min_r a n), (Z.min_r b n) by lia.
    rewrite !skipn_all2 by lia. rewrite !firstn_nil. reflexivity.
Qed.

Lemma paginate_window {A : Type} (chunks : list A) (k : nat) (limit : Z) :
  1 <= limit ->
  paginate chunks (Z.of_nat (S k)) limit
  = firstn (Z.to_nat limit) (skipn (k * Z.to_nat limit) chunks).
Proof.
  intros Hlimit. unfold paginate. rewrite slice_window by nia.
  f_equal; [f_equal; lia | f_equal; nia].
Qed.

Lemma windows_concat {A : Type} (l : nat) (xs : list A) (m : nat) :
  concat (map (fun k => firstn l (skipn (k * l) xs)) (seq 0 m))
  = firstn (m * l) xs.
Proof.
  induction m as [| m IH]; [reflexivity |].
  rewrite seq_S, map_app, concat_app, IH. simpl.
  rewrite app_nil_r, <- firstn_plus. f_equal. lia.
Qed.

Lemma pageCount_covers (n limit : Z) :
  1 <= limit -> 0 <= n ->
  n <= pageCount n limit * limit < n + limit.
Proof.
  intros Hlimit Hn. unfold pageCount.
  pose proof (Z.div_mod (- n) limit ltac:(lia)) as Hdiv.
  pose proof (Z.mod_pos_bound (- n) limit ltac:(lia)) as Hmod.
  nia.
Qed.

(** X29. For a positive page size, the pages of a chunk listing partition
    it: pages 1 to [totalPages], one after the other, are the chunks of the
    document in their order, no page is longer than [limit], and a page
    after [totalPages] is empty. *)
Theorem pages_partition_listing {A : Type} (chunks : list A) (limit : Z) :
  1 <= limit ->
  let pages := Z.to_nat (totalPages (pagination chunks 1 limit)) in
  concat (map (fun k => paginate chunks (Z.of_nat (S k)) limit) (seq 0 pages))
  = chunks
  /\ (forall k, (List.length (paginate chunks (Z.of_nat (S k)) limit)
                 <= Z.to_nat limit)%nat)
  /\ (forall k, (pages <= k)%nat ->
        paginate chunks (Z.of_nat (S k)) limit = []).
Proof.
  intros Hlimit. cbv zeta. simpl totalPages.
  pose proof (pageCount_covers (Z.of_nat (List.length chunks)) limit Hlimit
                ltac:(lia)) as Hcover.
  split; [| split].
  - rewrite (map_ext _ (fun k => firstn (Z.to_nat limit)
                                   (skipn (k * Z.to_nat limit) chunks)))
      by (intros k; apply paginate_window; exact Hlimit).
    rewrite windows_concat. apply firstn_all2. nia.
  - intros k. rewrite paginate_window by exact Hlimit.
    rewrite length_firstn. lia.
  - intros k Hk. rewrite paginate_window by exact Hlimit.
    rewrite skipn_all2; [apply firstn_nil | nia].
Qed.

(** X30. For a page number and a page size that pass validation, the
    pagination block is consistent: [hasNext] holds exactly when the page
    is before [totalPages], [hasPrev] exactly when it is after the first,
    [total] is the number of chunks, and [totalPages] is the least number
    of pages of [limit] chunks that hold them all. *)
Theorem pagination_block_consistent {A : Type} (chunks : list A)
    (page limit : Z) :
  1 <= page -> 1 <= limit ->
  let block := pagination chunks page limit in
  (hasNext block = true <-> page < totalPages block)
  /\ (hasPrev block = true <-> 1 < page)
  /\ total block = Z.of_nat (List.length chunks)
  /\ total block <= totalPages block * limit < total block + limit.
Proof.
  intros Hpage Hlimit. cbv zeta. simpl.
  pose proof (pageCount_covers (Z.of_nat (List.length chunks)) limit Hlimit
                ltac:(lia)) as Hcover.
  split; [| split; [apply Z.ltb_lt | split; [reflexivity | exact Hcover]]].
  rewrite Z.ltb_lt. split; intros H; nia.
Qed.

End PaginationFacts.


(* ===================================================================== *)
(** * The theorems at concrete inputs                                      *)
(* ===================================================================== *)

(** X2 on the first chunk of the four-sentence note. *)
Lemma chunks_are_numbered_witness :
  exists c,
    nth_error
      (DocumentProcessor.chunkText Fixtures.smallChunks Fixtures.uuids
         Fixtures.fourSentences Fixtures.noteBase) 0
    = Some c
    /\ DocumentProcessor.recorded Fixtures.uuids Fixtures.noteBase 0 c.
Proof.
  eexists. split; [reflexivity |].
  apply (chunks_are_numbered Fixtures.smallChunks Fixtures.uuids
           Fixtures.noteBase Fixtures.fourSentences 0).
  reflexivity.
Defined.

(** X3 on a text of punctuation and white space. *)
Lemma text_without_sentences_witness :
  map DocumentProcessor.content
    (DocumentProcessor.chunkText Fixtures.smallChunks Fixtures.uuids
       "?! ... " Fixtures.noteBase)
  = [].
Proof.
  apply (text_without_sentences Fixtures.smallChunks Fixtures.uuids
           Fixtures.noteBase "?! ... ").
  reflexivity.
Defined.


(** X6 on a server that never answers with valid JSON. *)
Lemma generation_returns_within_budget_witness :
  exists response server' k,
    OllamaClient.generateEvidenceTracedResponse
      (runtime := Fixtures.tableRuntime) Fixtures.ollamaConfig
      "question" "context" 3 Fixtures.garbledServer
    = (Js.Returns response, server')
    /\ 1 <= Z.of_nat k <= 3
    /\ OllamaClient.generateCalls server'
       = (OllamaClient.generateCalls Fixtures.garbledServer
          ++ repeat (OllamaClient.generationModel Fixtures.ollamaConfig) k)%list
    /\ OllamaClient.script server'
       = skipn k (OllamaClient.script Fixtures.garbledServer).
Proof.
  apply (generation_returns_within_budget (runtime := Fixtures.tableRuntime)
           Fixtures.ollamaConfig "question" "context" 3 Fixtures.garbledServer).
  lia.
Defined.

(** X7 on the reply that passes the schema. *)
Lemma returned_confidences_in_range_witness :
  (0 <= OllamaClient.overallConfidence Fixtures.pointerlessResponse <= 1)%Q
  /\ Forall (fun c => (0 <= OllamaClient.confidence c <= 1)%Q)
       (OllamaClient.claims Fixtures.pointerlessResponse).
Proof.
  eapply (returned_confidences_in_range (runtime := Fixtures.tableRuntime)
            Fixtures.ollamaConfig "question" "context" 3
            Fixtures.pointerlessServer).
  reflexivity.
Defined.

(** X8: one failure, then the valid reply. *)
Lemma first_valid_reply_wins_witness :
  exists server',
    OllamaClient.generateEvidenceTracedResponse
      (runtime := Fixtures.tableRuntime) Fixtures.ollamaConfig
      "question" "context" 3 Fixtures.recoveringServer
    = (Js.Returns Fixtures.pointerlessResponse, server')
    /\ OllamaClient.generateCalls server' = ["llama3.1:8b"; "llama3.1:8b"]%string
    /\ OllamaClient.script server' = [].
Proof.
  apply (first_valid_reply_wins (runtime := Fixtures.tableRuntime)
           Fixtures.ollamaConfig "question" "context" 3
           Fixtures.recoveringServer 1
           (OllamaClient.Responds Fixtures.pointerlessText)
           Fixtures.pointerlessResponse).
  - lia.
  - repeat constructor.
  - reflexivity.
  - reflexivity.
Defined.

(** X10: two documents, two answers of the reranker. *)
Lemma reranked_scores_clamped_witness :
  exists ranked server',
    OllamaClient.rerank (runtime := Fixtures.tableRuntime)
      Fixtures.rerankerConfig "question" Fixtures.twoDocuments 6
      Fixtures.scoringServer
    = (Js.Returns ranked, server')
    /\ Forall (fun d => (0 <= OllamaClient.scored_score d <= 1)%R) ranked
    /\ OllamaClient.generateCalls server'
       = ["bge-reranker"; "bge-reranker"]%string.
Proof.
  apply (reranked_scores_clamped (runtime := Fixtures.tableRuntime)
           Fixtures.rerankerConfig "question" "bge-reranker"
           Fixtures.twoDocuments 6 Fixtures.scoringServer).
  - reflexivity.
  - reflexivity.
  - simpl. lia.
  - repeat constructor.
Defined.

(** X11: the second call of the reranker is rejected. *)
Lemma rerank_failure_passes_through_witness :
  exists server',
    OllamaClient.rerank (runtime := Fixtures.tableRuntime)
      Fixtures.rerankerConfig "question" Fixtures.twoDocuments 6
      Fixtures.failingReranker
    = (Js.Returns (OllamaClient.byExistingScore Fixtures.twoDocuments 6),
       server').
Proof.
  apply (rerank_failure_passes_through (runtime := Fixtures.tableRuntime)
           Fixtures.rerankerConfig "question" "bge-reranker"
           Fixtures.twoDocuments 6 Fixtures.failingReranker 1 "timeout").
  - reflexivity.
  - simpl. lia.
  - repeat constructor.
  - reflexivity.
Defined.

(** X12 on two texts. *)
Lemma embeddings_keep_order_witness :
  exists results,
    OllamaClient.generateEmbeddings Fixtures.ollamaConfig
      ["first"; "second"]%string Fixtures.pointerlessServer
    = (Js.Returns results, Fixtures.pointerlessServer)
    /\ Forall2
         (fun text r =>
            OllamaClient.embeddings Fixtures.pointerlessServer text
            = Js.Returns (OllamaClient.embedding r)
            /\ OllamaClient.prompt r = text
            /\ OllamaClient.model r
               = OllamaClient.embeddingModel Fixtures.ollamaConfig)
         ["first"; "second"]%string results.
Proof.
  apply (embeddings_keep_order Fixtures.ollamaConfig
           ["first"; "second"]%string Fixtures.pointerlessServer).
  intros text _. eexists. reflexivity.
Defined.

(** X13 on a server that rejects every prompt. *)
Lemma embeddings_all_or_nothing_witness :
  exists message,
    OllamaClient.generateEmbeddings Fixtures.ollamaConfig
      ["first"; "second"]%string Fixtures.refusingServer
    = (Js.Throws message, Fixtures.refusingServer).
Proof.
  apply (embeddings_all_or_nothing Fixtures.ollamaConfig
           ["first"; "second"]%string Fixtures.refusingServer
           "second" "connection refused").
  - right. left. reflexivity.
  - reflexivity.
Defined.

(** The scan of the one-row store, with or without a filter that holds
    the document of the row. *)
Lemma policy_scan (documentIds : option (list string)) :
  VectorStore.inFilter documentIds Fixtures.policyRow = true ->
  VectorStore.cosineSimilaritySearch Fixtures.scannedStore
    [0%R; 0%R; 0%R; (-1)%R] 10 documentIds
  = Js.Returns [Fixtures.oppositeResult].
Proof.
  intros Hfilter. unfold VectorStore.cosineSimilaritySearch.
  unfold Fixtures.scannedStore, VectorStore.document_embeddings.
  unfold filter. rewrite Hfilter.
  unfold Fixtures.policyRow at 1, VectorStore.row_embedding at 1, andb.
  unfold VectorStore.scanRows, Fixtures.policyRow at 1,
    VectorStore.row_embedding at 1.
  rewrite policyRow_decoded, cosineSimilarity_opposite.
  unfold app, VectorStore.sortByScore, fold_right, VectorStore.insertByScore.
  assert (Hslice : forall r : VectorStore.VectorSearchResult,
            Js.slice_to 10 [r] = [r]) by reflexivity.
  rewrite Hslice. unfold Fixtures.oppositeResult.
  f_equal. f_equal. f_equal. lra.
Qed.

(** X17 on the one-row store. *)
Lemma scan_results_ranked_witness :
  VectorStore.descending VectorStore.score [Fixtures.oppositeResult]
  /\ (0 <= 10 -> Z.of_nat (List.length [Fixtures.oppositeResult]) <= 10)
  /\ Forall
       (fun r =>
          exists row,
            In row (VectorStore.document_embeddings Fixtures.scannedStore)
            /\ VectorStore.row_embedding row <> None
            /\ VectorStore.inFilter None row = true
            /\ VectorStore.chunk r = VectorStore.rowToChunk row)
       [Fixtures.oppositeResult].
Proof.
  apply (scan_results_ranked Fixtures.scannedStore
           [0%R; 0%R; 0%R; (-1)%R] 10 None [Fixtures.oppositeResult]).
  apply policy_scan. reflexivity.
Defined.

(** X18 on the one-row store, filtered on its document. *)
Lemma search_respects_filter_witness :
  Forall
    (fun r =>
       In (DocumentProcessor.documentId (VectorStore.chunk r)) ["doc-1"%string])
    [Fixtures.oppositeResult].
Proof.
  apply (search_respects_filter Fixtures.scannedStore
           [0%R; 0%R; 0%R; (-1)%R] 10 ["doc-1"%string]
           [Fixtures.oppositeResult]).
  - discriminate.
  - unfold VectorStore.searchSimilar, VectorStore.vectorSearch.
    simpl VectorStore.hasFilter. cbv iota.
    apply policy_scan. reflexivity.
Defined.

(** X19 on the store of two documents. *)
Lemma deleted_document_is_gone_witness :
  exists db',
    VectorStore.deleteDocument Fixtures.twoDocumentStore "doc-1"
    = Js.Returns db'
    /\ VectorStore.getChunksByDocumentId db' "doc-1" = []
    /\ (forall other, other <> "doc-1"%string ->
          VectorStore.getChunksByDocumentId db' other
          = VectorStore.getChunksByDocumentId Fixtures.twoDocumentStore other)
    /\ (forall q topK documentIds results,
          VectorStore.searchSimilar db' q topK documentIds = Js.Returns results ->
          Forall
            (fun r =>
               DocumentProcessor.documentId (VectorStore.chunk r)
               <> "doc-1"%string)
            results).
Proof.
  eapply (deleted_document_is_gone Fixtures.twoDocumentStore "doc-1").
  reflexivity.
Defined.


(** X22 on the store without the extension. *)
Lemma ingestion_needs_index_table_witness :
  exists message server',
    RAGPipeline.ingestURL (platform := Fixtures.plainPlatform)
      (engine := Fixtures.plainEngine) Fixtures.ingestConfig
      Fixtures.scannedStore "https://example.org/notes" Fixtures.fourSentences
      Fixtures.pointerlessServer
    = (Js.Throws message, server').
Proof.
  apply (ingestion_needs_index_table (platform := Fixtures.plainPlatform)
           (engine := Fixtures.plainEngine) Fixtures.ingestConfig
           Fixtures.scannedStore "https://example.org/notes"
           Fixtures.fourSentences Fixtures.pointerlessServer).
  reflexivity.
Defined.



(** X25: the question and the stored chunk both have one-dimensional
    embeddings, and the query is restricted to the document of the chunk. *)
Lemma scoped_query_throws_on_stored_embedding_witness :
  RAGPipeline.query (runtime := Fixtures.tableRuntime)
    (formatting := Fixtures.plainFormatting) Fixtures.ragConfig
    Fixtures.scannedStore "What are the requirements?"
    (Some ["doc-1"%string]) None Fixtures.unitServer
  = (Js.Throws
       "Failed to process query: Error: Vectors must have the same length",
     Fixtures.unitServer).
Proof.
  apply (scoped_query_throws_on_stored_embedding
           (runtime := Fixtures.tableRuntime)
           (formatting := Fixtures.plainFormatting) Fixtures.ragConfig
           (fun _ => (x00, x00, x00, x40)) Fixtures.scannedStore
           "What are the requirements?" ["doc-1"%string] None
           Fixtures.unitServer [1%R] [2%R] Fixtures.policyRow).
  - reflexivity.
  - discriminate.
  - left. reflexivity.
  - left. reflexivity.
  - reflexivity.
  - reflexivity.
Defined.

(** X26 on the store whose index reports the distance 0.1, with a server
    that never answers with valid JSON. *)
Lemma query_returns_after_retrieval_witness :
  exists result server',
    RAGPipeline.query (runtime := Fixtures.tableRuntime)
      (formatting := Fixtures.plainFormatting) Fixtures.ragConfig
      Fixtures.nearStore "What are the requirements?" None None
      Fixtures.garbledServer
    = (Js.Returns result, server')
    /\ RAGPipeline.retrievedChunks result
       = filter
           (fun r =>
              VectorStore.geb (VectorStore.score r)
                (RAGPipeline.confidenceThreshold
                   (RAGPipeline.retrieval Fixtures.ragConfig)))
           [Fixtures.nearResult]
    /\ Forall
         (fun r =>
            (RAGPipeline.confidenceThreshold
               (RAGPipeline.retrieval Fixtures.ragConfig)
             <= VectorStore.score r)%R)
         (RAGPipeline.retrievedChunks result).
Proof.
  apply (query_returns_after_retrieval (runtime := Fixtures.tableRuntime)
           (formatting := Fixtures.plainFormatting) Fixtures.ragConfig
           Fixtures.nearStore "What are the requirements?" None None
           Fixtures.garbledServer [1%R; 0%R] [Fixtures.nearResult]).
  - reflexivity.
  - reflexivity.
Defined.

(** X29: five chunks in pages of two. *)
Lemma pages_partition_listing_witness :
  concat
    (map (fun k => RagRoutes.paginate [1; 2; 3; 4; 5] (Z.of_nat (S k)) 2)
       (seq 0 3))
  = [1; 2; 3; 4; 5].
Proof.
  apply (proj1 (pages_partition_listing [1; 2; 3; 4; 5] 2 ltac:(lia))).
Defined.

(** X30: the second of three pages. *)
Lemma pagination_block_consistent_witness :
  let block := RagRoutes.pagination [1; 2; 3; 4; 5] 2 2 in
  (RagRoutes.hasNext block = true <-> 2 < RagRoutes.totalPages block)
  /\ (RagRoutes.hasPrev block = true <-> 1 < 2)
  /\ RagRoutes.total block = 5
  /\ RagRoutes.total block <= RagRoutes.totalPages block * 2
     < RagRoutes.total block + 2.
Proof.
  apply (pagination_block_consistent [1; 2; 3; 4; 5] 2 2); lia.
Defined.
